(** * UltraStarAutoPitch: the chart pitching pipeline of [main.py]

    A shallow embedding of [loadFile], [pitch], [pitch2hz], [hz2note],
    [writeFile] and the top-level driver, together with the properties
    of the chart format, the time-to-frame mapping, the confidence
    filter and the pitch-to-note conversion.

    Number model.  A Python [float] is a binary64 value; every finite
    one is a rational.  The field arithmetic of the program ([+], [-],
    [*], [/], comparison, [int()]) is embedded over [Q] and is exact.
    The two functions that use [**] and [np.log] are embedded over [R].
    Rounding errors of binary64 are outside this model; the frame
    numbers of a note are given a second time as Python computes them,
    in binary64, in the module [B64]. *)

From Stdlib Require Import List String Ascii Bool Arith ZArith Lia.
From Stdlib Require Import QArith Qround Qreals Reals Psatz.
From Stdlib Require Import DecimalString SpecFloat.
Import ListNotations.

Set Implicit Arguments.

(** ** Errors

    [exit(msg)] and the exceptions the program can raise.  The [Exit_]
    constructors stand for the calls of [exit] in the source, one per
    message; the others are Python's own exceptions. *)

Inductive error : Type :=
| Exit_InvalidFormat (line : string)
    (* "Invalid format. Failed on: " + line + "Please make sure ..." *)
| Exit_NoBpmTag                        (* "No #BPM-Tag in header found!" *)
| Exit_NoGapTag                        (* "No #GAP-Tag in header found!" *)
| Exit_InvalidLine (line : list string) (* "Invalid line: " + str(line) + "." *)
| Exit_Audio                           (* either [exit] of [loadAudio] *)
| TypeError
| ValueError
| IndexError
| ZeroDivisionError
| OverflowError.

(** The two error classes the specification names. *)
Definition is_FormatError (e : error) : bool :=
  match e with
  | Exit_InvalidFormat _ | Exit_InvalidLine _ => true
  | _ => false
  end.

Definition is_MissingTagError (e : error) : bool :=
  match e with
  | Exit_NoBpmTag | Exit_NoGapTag => true
  | _ => false
  end.

Definition result (A : Type) : Type := (error + A)%type.

Definition ok {A} (a : A) : result A := inr a.
Definition raise {A} (e : error) : result A := inl e.

Definition bind {A B} (m : result A) (k : A -> result B) : result B :=
  match m with
  | inl e => inl e
  | inr a => k a
  end.

Declare Scope result_scope.
Delimit Scope result_scope with result.
Notation "x <- m ;; k" := (bind m (fun x => k))
  (at level 61, m at next level, right associativity) : result_scope.
Notation "' p <- m ;; k" := (bind m (fun x => match x with p => k end))
  (at level 61, p pattern, m at next level, right associativity) : result_scope.
Open Scope result_scope.

(** A [for] loop that appends one computed element per iteration and
    stops at the first error. *)
Fixpoint for_each {A B} (f : A -> result B) (l : list A) : result (list B) :=
  match l with
  | [] => ok []
  | x :: rest =>
      y <- f x ;;
      ys <- for_each f rest ;;
      ok (y :: ys)
  end.

(** ** Python built-ins *)

Module Py.

(** [s.split(sep)] for a one-character separator: every occurrence
    separates, so consecutive separators give empty tokens and the
    result is never empty. *)
Fixpoint split (sep : ascii) (s : string) : list string :=
  match s with
  | EmptyString => [EmptyString]
  | String c rest =>
      if Ascii.eqb c sep then EmptyString :: split sep rest
      else match split sep rest with
           | tok :: toks => String c tok :: toks
           | [] => [String c EmptyString]
           end
  end.

(** [sep.join(toks)], the inverse direction, used to state properties. *)
Fixpoint join (sep : ascii) (toks : list string) : string :=
  match toks with
  | [] => EmptyString
  | [tok] => tok
  | tok :: rest => (tok ++ String sep (join sep rest))%string
  end.

(** [s[n:]]. *)
Fixpoint drop (n : nat) (s : string) : string :=
  match n, s with
  | O, _ => s
  | S _, EmptyString => EmptyString
  | S n', String _ rest => drop n' rest
  end.

(** [s[0:n]]. *)
Definition take (n : nat) (s : string) : string := substring 0 n s.

(** [s.startswith(p)]. *)
Definition startswith (p s : string) : bool := String.prefix p s.

(** [s[0]]: the first character, [IndexError] on the empty string. *)
Definition first_char (s : string) : result ascii :=
  match s with
  | EmptyString => raise IndexError
  | String c _ => ok c
  end.

(** [l[i]] on a list. *)
Definition getitem {A} (l : list A) (i : nat) : result A :=
  match nth_error l i with
  | Some a => ok a
  | None => raise IndexError
  end.

(** [l[i] = v] for an index in range. *)
Fixpoint setitem {A} (l : list A) (i : nat) (v : A) : list A :=
  match l, i with
  | [], _ => []
  | _ :: rest, O => v :: rest
  | a :: rest, S i' => a :: setitem rest i' v
  end.

(** [l.pop()] on a non-empty list: the list without its last element,
    and that element. *)
Definition pop {A} (d : A) (l : list A) : list A * A :=
  (removelast l, last l d).

(** [str(n)] for an [int]. *)
Definition str (n : Z) : string := NilZero.string_of_int (Z.to_int n).

(** [int(x)] for a float: truncation toward zero. *)
Definition int_of_float (x : Q) : Z := Z.quot (Qnum x) (Zpos (Qden x)).

(** [l[start:stop]]: a negative index counts from the end, and after
    that both indices are clamped to [0, len(l)].  The same rule holds
    for a one-dimensional numpy array. *)
Definition slice_index (n i : Z) : Z :=
  if (i <? 0)%Z then Z.max (i + n) 0 else Z.min i n.

Definition slice {A} (l : list A) (start stop : Z) : list A :=
  let n := Z.of_nat (List.length l) in
  let lo := slice_index n start in
  let hi := slice_index n stop in
  firstn (Z.to_nat (hi - lo)) (skipn (Z.to_nat lo) l).

End Py.

(** [int(str)] and [float(str)] are taken as given: the program is
    embedded over any pair of readers.  A reader gives [None] where
    Python raises [ValueError]; a float that is not finite has no
    counterpart in [Q] and is read as [None] too. *)
Class Builtins : Type := {
  py_int : string -> option Z;
  py_float : string -> option Q
}.

Definition value_of {A} (o : option A) : result A :=
  match o with
  | Some a => ok a
  | None => raise ValueError
  end.

(** ** numpy *)

Module Np.

(** [a[mask]] for a boolean array [mask]: the lengths must agree. *)
Fixpoint mask {A} (a : list A) (m : list bool) : result (list A) :=
  match a, m with
  | [], [] => ok []
  | x :: a', b :: m' =>
      r <- mask a' m' ;;
      ok (if b then x :: r else r)
  | _, _ => raise IndexError
  end.

Fixpoint insert_sorted (x : Q) (l : list Q) : list Q :=
  match l with
  | [] => [x]
  | y :: rest => if Qle_bool x y then x :: l else y :: insert_sorted x rest
  end.

Definition sort (l : list Q) : list Q := fold_right insert_sorted [] l.

(** [np.median] of a non-empty one-dimensional array: the middle
    element of the sorted values, or the mean of the two middle ones. *)
Definition median (l : list Q) : Q :=
  let s := sort l in
  let n := List.length s in
  if Nat.even n
  then (nth (n / 2 - 1) s 0 + nth (n / 2) s 0) / 2
  else nth (n / 2) s 0.

(** [int(np.round(x))]: the nearest integer, a tie going to the even
    neighbour. *)
Definition round (x : R) : Z :=
  let f := Int_part x in
  let d := (x - IZR f)%R in
  if Rlt_dec d (1 / 2) then f
  else if Rlt_dec (1 / 2) d then (f + 1)%Z
  else if Z.even f then f else (f + 1)%Z.

End Np.

(** ** [loadFile] *)

Definition is_metadata (line : string) : result bool :=
  c <- Py.first_char line ;;
  ok (Ascii.eqb c "#").

(** First loop: the lines whose first character is [#], as they are. *)
Fixpoint loadFile_metaData (lines : list string) : result (list string) :=
  match lines with
  | [] => ok []
  | line :: rest =>
      m <- is_metadata line ;;
      md <- loadFile_metaData rest ;;
      ok (if m then line :: md else md)
  end.

(** The body of the second loop for one line that is not metadata. *)
Definition loadFile_split (line : string) : result (list string) :=
  let split := Py.split " " line in
  if (List.length split =? 6)%nat then
    let '(split', tok) := Py.pop EmptyString split in
    ok (Py.setitem split' 4 (" " ++ tok)%string)
  else if (6 <? List.length split)%nat then
    raise (Exit_InvalidFormat line)
  else
    ok split.

(** Second loop. *)
Fixpoint loadFile_lyrics (lines : list string) : result (list (list string)) :=
  match lines with
  | [] => ok []
  | line :: rest =>
      m <- is_metadata line ;;
      if m then loadFile_lyrics rest
      else
        split <- loadFile_split line ;;
        ly <- loadFile_lyrics rest ;;
        ok (split :: ly)
  end.

Definition loadFile (lines : list string) : result (list string * list (list string)) :=
  metaData <- loadFile_metaData lines ;;
  lyrics <- loadFile_lyrics lines ;;
  ok (metaData, lyrics).

(** ** [pitch2hz] and [hz2note] *)

Definition PT_OFFSET : R := 25.58.
Definition PT_SLOPE : R := 63.07.
Definition FMIN : R := 10.
Definition BINS_PER_OCTAVE : R := 12.

Definition pitch2hz (pitch : R) : R :=
  let cqt_bin := (pitch * PT_SLOPE + PT_OFFSET)%R in
  (FMIN * Rpower 2 (1 * cqt_bin / BINS_PER_OCTAVE))%R.

Definition hz2note (hz : R) : Z :=
  (Np.round (12 * ln (4 * hz / 55 * Rpower 2 (3 / 4)) / ln 2) - 60)%Z.

(** ** [pitch] *)

(** The output of the model: [modelOutput["pitch"]] and
    [modelOutput["uncertainty"]]. *)
Record modelOutput : Type := {
  mo_pitch : list Q;
  mo_uncertainty : list Q
}.

(** [tps = int(bpm)*4/60]: an integer product, then a true division. *)
Definition ticksPerSecond (bpm : Q) : Q :=
  inject_Z (Py.int_of_float bpm * 4) / 60.

(** The frame numbers of a note, for a non-zero [tps]:
    [int(((gap/1000) + start/tps - 0.5/tps) * 1000/32)] and
    [int(((gap/1000) + (start + duration)/tps + 0.5/tps) * 1000/32)]. *)
Definition startFrame (gap tps : Q) (start : Z) : Z :=
  Py.int_of_float ((gap / 1000 + inject_Z start / tps - (1 # 2) / tps) * 1000 / 32).

Definition endFrame (gap tps : Q) (start duration : Z) : Z :=
  Py.int_of_float
    ((gap / 1000 + inject_Z (start + duration) / tps + (1 # 2) / tps) * 1000 / 32).

(** [pitches = pitch[start:end]; pitches = pitches[confidence[start:end] >= c]]. *)
Definition confident_pitches (c : Q) (pitch confidence : list Q) (start stop : Z)
  : result (list Q) :=
  let pitches := Py.slice pitch start stop in
  Np.mask pitches (map (fun x => Qle_bool c x) (Py.slice confidence start stop)).

Definition note_of (pitches : list Q) : Z :=
  match pitches with
  | [] => 0%Z
  | _ :: _ => hz2note (pitch2hz (Q2R (Np.median pitches)))
  end.

Section Pitch.

Context {builtins : Builtins}.

(** The header loop: the last [#BPM] and the last [#GAP] line win. *)
Fixpoint pitch_tags (metaData : list string) (bpm gap : option Q)
  : result (option Q * option Q) :=
  match metaData with
  | [] => ok (bpm, gap)
  | line :: rest =>
      bpm' <- (if String.eqb (Py.take 4 line) "#BPM"
               then v <- value_of (py_float (Py.drop 5 line)) ;; ok (Some v)
               else ok bpm) ;;
      gap' <- (if String.eqb (Py.take 4 line) "#GAP"
               then v <- value_of (py_float (Py.drop 5 line)) ;; ok (Some v)
               else ok gap) ;;
      pitch_tags rest bpm' gap'
  end.

(** The [else] branch of the lyrics loop: a sung note. *)
Definition pitch_note (c gap tps : Q) (pitch confidence : list Q)
           (line : list string) : result (list string) :=
  if (List.length line <? 5)%nat then raise (Exit_InvalidLine line)
  else
    l0 <- Py.getitem line 0 ;;
    l1 <- Py.getitem line 1 ;;
    l2 <- Py.getitem line 2 ;;
    l4 <- Py.getitem line 4 ;;
    t <- value_of (py_int l1) ;;
    if Qeq_bool tps 0 then raise ZeroDivisionError
    else
      let start := startFrame gap tps t in
      d <- value_of (py_int l2) ;;
      let stop := endFrame gap tps t d in
      pitches <- confident_pitches c pitch confidence start stop ;;
      let note := note_of pitches in
      ok [l0; l1; l2; Py.str note; l4].

(** The body of the lyrics loop. *)
Definition pitch_line (c gap tps : Q) (pitch confidence : list Q)
           (line : list string) : result (list string) :=
  l0 <- Py.getitem line 0 ;;
  if Py.startswith "-" l0 then
    l1 <- Py.getitem line 1 ;;
    ok [l0; l1]
  else if Py.startswith "E" l0 then
    ok [l0]
  else
    pitch_note c gap tps pitch confidence line.

(** [pitch(metaData, lyrics, modelOutput)], with [args.confidence]
    as [c]. *)
Definition pitch (c : Q) (metaData : list string) (lyrics : list (list string))
           (out : modelOutput) : result (list (list string)) :=
  '(bpm, gap) <- pitch_tags metaData None None ;;
  tps <- match bpm with
         | Some b => ok (ticksPerSecond b)
         | None => raise TypeError          (* int(None) *)
         end ;;
  _ <- match bpm with
       | Some _ => ok tt
       | None => raise Exit_NoBpmTag
       end ;;
  g <- match gap with
       | Some g => ok g
       | None => raise Exit_NoGapTag
       end ;;
  let confidence := map (fun u => 1 - u) (mo_uncertainty out) in
  for_each (pitch_line c g tps (mo_pitch out) confidence) lyrics.

End Pitch.

(** ** [writeFile] *)

(** The body of the loop that builds [lyricsString]. *)
Definition writeFile_line (line : list string) : result string :=
  l0 <- Py.getitem line 0 ;;
  if Py.startswith "-" l0 then
    l1 <- Py.getitem line 1 ;;
    ok (l0 ++ " " ++ l1)%string
  else if Py.startswith "E" l0 then
    ok l0
  else if (List.length line <? 5)%nat then raise (Exit_InvalidLine line)
  else
    l1 <- Py.getitem line 1 ;;
    l2 <- Py.getitem line 2 ;;
    l3 <- Py.getitem line 3 ;;
    l4 <- Py.getitem line 4 ;;
    ok (l0 ++ " " ++ l1 ++ " " ++ l2 ++ " " ++ l3 ++ " " ++ l4)%string.

(** ** The driver

    The run is a sequence of steps on the world outside the program.
    A step that fails ends the run; the steps done so far stay done. *)

Inductive event : Type :=
| ReadChart                         (* loadFile: open and readlines *)
| LoadAudio                         (* loadAudio *)
| PrepareAudio                      (* prepareAudio *)
| Analyze                           (* analyze: the model is run *)
| CreateDest                        (* open(dest, "w") *)
| WriteLines (chunks : list string) (* file1.writelines(chunks) *).

Definition run (A : Type) : Type := (list event * result A)%type.

Definition run_ret {A} (a : A) : run A := ([], ok a).

Definition run_bind {A B} (m : run A) (k : A -> run B) : run B :=
  match m with
  | (tr, inl e) => (tr, inl e)
  | (tr, inr a) => let '(tr', r) := k a in (tr ++ tr', r)
  end.

Definition emit (e : event) : run unit := ([e], ok tt).
Definition lift {A} (r : result A) : run A := ([], r).

Declare Scope run_scope.
Delimit Scope run_scope with run.
Notation "x <- m ;; k" := (run_bind m (fun x => k))
  (at level 61, m at next level, right associativity) : run_scope.
Notation "' p <- m ;; k" := (run_bind m (fun x => match x with p => k end))
  (at level 61, p pattern, m at next level, right associativity) : run_scope.

(** [writeFile(metaData, lyricsPitched)]: the destination is created
    empty, the note lines are built, then both lists are appended. *)
Definition writeFile (metaData : list string) (lyricsPitched : list (list string))
  : run unit :=
  (_ <- emit CreateDest ;;
   lyricsString <- lift (for_each writeFile_line lyricsPitched) ;;
   _ <- emit (WriteLines metaData) ;;
   emit (WriteLines lyricsString))%run.

(** The [__main__] block.  [lines] is what [readlines] returned for the
    chart; [audio] is what [loadAudio], [prepareAudio] and [analyze]
    produce: an [exit] of [loadAudio] or the output of the model. *)
Definition main {builtins : Builtins} (c : Q) (lines : list string)
           (audio : result modelOutput) : run unit :=
  (_ <- emit ReadChart ;;
   '(metaData, lyrics) <- lift (loadFile lines) ;;
   _ <- emit LoadAudio ;;
   out <- lift audio ;;
   _ <- emit PrepareAudio ;;
   _ <- emit Analyze ;;
   lyricsPitched <- lift (pitch c metaData lyrics out) ;;
   writeFile metaData lyricsPitched)%run.

(** What the destination file holds after a run: [None] when it was
    never created, else the chunks written to it, in order. *)
Fixpoint dest_after (tr : list event) (dest : option (list string))
  : option (list string) :=
  match tr with
  | [] => dest
  | CreateDest :: rest => dest_after rest (Some [])
  | WriteLines chunks :: rest =>
      dest_after rest (Some (match dest with
                             | Some old => old ++ chunks
                             | None => chunks
                             end))
  | _ :: rest => dest_after rest dest
  end.

Definition is_audio_work (e : event) : bool :=
  match e with
  | LoadAudio | PrepareAudio | Analyze => true
  | _ => false
  end.

Definition is_output (e : event) : bool :=
  match e with
  | CreateDest | WriteLines _ => true
  | _ => false
  end.

(** ** A pair of readers

    Plain decimal numerals, as a chart holds them: an optional sign,
    digits, for a float an optional fraction, and trailing white space
    (the line terminator).  On these Python's [int] and [float] return
    the same numbers. *)

Module Decimal.

Definition is_digit (c : ascii) : bool :=
  let n := nat_of_ascii c in (48 <=? n)%nat && (n <=? 57)%nat.

Definition is_space (c : ascii) : bool :=
  let n := nat_of_ascii c in
  (n =? 32)%nat || (n =? 10)%nat || (n =? 13)%nat || (n =? 9)%nat.

Fixpoint all_space (s : string) : bool :=
  match s with
  | EmptyString => true
  | String c rest => is_space c && all_space rest
  end.

(** The digits at the front of [s]: their value after [acc], how many
    there are, and what follows them. *)
Fixpoint digits (s : string) (acc : Z) (count : nat) : Z * nat * string :=
  match s with
  | EmptyString => (acc, count, s)
  | String c rest =>
      if is_digit c
      then digits rest (acc * 10 + Z.of_nat (nat_of_ascii c - 48)) (S count)
      else (acc, count, s)
  end.

Definition signed (s : string) : bool * string :=
  match s with
  | String "-" rest => (true, rest)
  | String "+" rest => (false, rest)
  | _ => (false, s)
  end.

Definition read_int (s : string) : option Z :=
  let '(neg, body) := signed s in
  let '(v, n, rest) := digits body 0 0 in
  if (0 <? n)%nat && all_space rest
  then Some (if neg then - v else v)%Z
  else None.

Definition read_float (s : string) : option Q :=
  let '(neg, body) := signed s in
  let '(v, n, rest) := digits body 0 0 in
  let '(f, m, rest') :=
    match rest with
    | String "." frac => digits frac 0 0
    | _ => (0%Z, O, rest)
    end in
  if (0 <? n + m)%nat && all_space rest'
  then let q := inject_Z v + inject_Z f / inject_Z (10 ^ Z.of_nat m) in
       Some (if neg then - q else q)
  else None.

End Decimal.

#[export] Instance decimal_builtins : Builtins := {
  py_int := Decimal.read_int;
  py_float := Decimal.read_float
}.

(** ** The specification's formulas

    The Time-to-Frame Mapper and the tick rate as the specification
    words them, to be compared with [startFrame], [endFrame] and
    [ticksPerSecond] above. *)

Module Spec.

Definition ticksPerSecond (bpmValue : Q) : Q := bpmValue * 4 / 60.

Definition startSec (gapMs tps : Q) (startTick : Z) : Q :=
  gapMs / 1000 + inject_Z startTick / tps - (1 # 2) / tps.

Definition endSec (gapMs tps : Q) (startTick durationTick : Z) : Q :=
  gapMs / 1000 + inject_Z (startTick + durationTick) / tps + (1 # 2) / tps.

Definition startFrame (gapMs tps : Q) (startTick : Z) (frameDurationMs : Q) : Z :=
  Qfloor (startSec gapMs tps startTick * 1000 / frameDurationMs).

Definition endFrame (gapMs tps : Q) (startTick durationTick : Z)
           (frameDurationMs : Q) : Z :=
  Qfloor (endSec gapMs tps startTick durationTick * 1000 / frameDurationMs).

(** A range clamped to the bounds of a series of [n] frames. *)
Definition clamp (n i : Z) : Z := Z.max 0 (Z.min i n).

Definition clamped_slice {A} (l : list A) (start stop : Z) : list A :=
  let n := Z.of_nat (List.length l) in
  firstn (Z.to_nat (clamp n stop - clamp n start))
         (skipn (Z.to_nat (clamp n start)) l).

End Spec.

(** The frame indices that [l[start:stop]] selects in a series of [n]
    frames. *)
Definition slice_frames (n : nat) (start stop : Z) : list nat :=
  let lo := Py.slice_index (Z.of_nat n) start in
  let hi := Py.slice_index (Z.of_nat n) stop in
  seq (Z.to_nat lo) (Z.to_nat (hi - lo)).

(** Whether some line of the chart starts with the four characters of
    a tag. *)
Definition has_tag (tag : string) (lines : list string) : bool :=
  existsb (fun line => String.eqb (Py.take 4 line) tag) lines.

Definition starts_with_hash (line : string) : bool :=
  match line with
  | String c _ => Ascii.eqb c "#"
  | EmptyString => false
  end.

Definition no_space (s : string) : Prop := Py.split " " s = [s].

(** The line terminator. *)
Definition LF : string := String "010" EmptyString.

(** ** [prepareAudio]

    The decoded audio is a one-dimensional array of samples or a
    two-dimensional one, a row of channel values per sample. *)

Inductive audioData : Type :=
| Mono (samples : list Q)
| Multi (rows : list (list Q)).

(** [np.mean] of one row: the sum over the number of values. *)
Definition row_mean (row : list Q) : Q :=
  fold_right Qplus 0 row / inject_Z (Z.of_nat (List.length row)).

(** [if len(audioData.shape) > 1: audioData = np.mean(audioData, axis=1)]. *)
Definition to_mono (audio : audioData) : list Q :=
  match audio with
  | Mono samples => samples
  | Multi rows => map row_mean rows
  end.

(** [a = np.zeros(m); a[:len(b)] = b] for [len(b) <= m]. *)
Definition zeros_with_prefix (m : nat) (b : list Q) : list Q :=
  (b ++ skipn (List.length b) (repeat 0 m))%list.

(** [int(np.ceil(n/512)) * 512]. *)
Definition padded_length (n : nat) : Z :=
  (Qceiling (inject_Z (Z.of_nat n) / 512) * 512)%Z.

Section PrepareAudio.

(** [scipy.signal.resample(x, num)] is taken as given. *)
Variable resample : list Q -> Z -> result (list Q).

Definition prepareAudio (audio : audioData) (samplerate : Z) : result (list Q) :=
  let mono := to_mono audio in
  if (samplerate =? 0)%Z then raise ZeroDivisionError
  else
    let resampleFactor := 16000 / inject_Z samplerate in
    processedAudio <-
      resample mono
               (Qceiling (inject_Z (Z.of_nat (List.length mono)) * resampleFactor)) ;;
    ok (zeros_with_prefix (Z.to_nat (padded_length (List.length processedAudio)))
                          processedAudio).

End PrepareAudio.

(** ** The destination of [writeFile] *)

(** [s[start:stop]] on a string. *)
Definition str_slice (s : string) (start stop : Z) : string :=
  string_of_list_ascii (Py.slice (list_ascii_of_string s) start stop).

(** [dest = args.filename[:-4] + "_pitched.txt"]. *)
Definition dest_of (filename : string) : string :=
  (str_slice filename 0 (-4) ++ "_pitched.txt")%string.

(** ** The frequency of a MIDI number

    The formula in the comment of [hz2note]:
    [f = 440*2^((n-69)/12)], for [f] in Hz and [n] a MIDI number. *)
Definition midi_hz (n : R) : R := (440 * Rpower 2 ((n - 69) / 12))%R.

(** The non-metadata lines of a chart. *)
Definition is_lyric (line : string) : bool := negb (starts_with_hash line).

(** The stored lines [pitch] takes without an error: a line whose
    first field starts with [-] and that has a second field, a line
    whose first field starts with [E], or a line of five fields or more
    whose second and third field read as integers. *)
Definition pitchable {builtins : Builtins} (line : list string) : bool :=
  match line with
  | [] => false
  | l0 :: rest =>
      if Py.startswith "-" l0 then (1 <=? List.length rest)%nat
      else if Py.startswith "E" l0 then true
      else match rest with
           | l1 :: l2 :: _ :: _ :: _ =>
               match py_int l1, py_int l2 with
               | Some t, Some d =>
                   (Z.abs t <? 2 ^ 53)%Z && (Z.abs d <? 2 ^ 53)%Z
               | _, _ => false
               end
           | _ => false
           end
  end.

(** ** The frame numbers in binary64

    Lines 122, 163 and 164 as Python computes them: every operation on
    floats is rounded to binary64 (53 bits of precision, round to
    nearest, ties to even), an [int] that meets a float is converted
    first, and [int()] of the result truncates.  [startFrame] and
    [endFrame] above are the same two expressions in exact
    arithmetic. *)

Module B64.

Definition prec : Z := 53.
Definition emax : Z := 1024.

Definition float : Type := spec_float.

(** A float that is not finite cannot come out of a conversion or a
    division of integers: Python raises [OverflowError] instead. *)
Definition finite_or_overflow (x : float) : result float :=
  match x with
  | S754_infinity _ => raise OverflowError
  | _ => ok x
  end.

(** The conversion of an [int] that meets a float in an operation. *)
Definition of_int (n : Z) : result float :=
  finite_or_overflow (binary_normalize prec emax n 0 false).

(** A literal [m * 2^e], such as [0.5]. *)
Definition literal (m e : Z) : float := binary_normalize prec emax m e false.

Definition add (x y : float) : float := SFadd prec emax x y.
Definition sub (x y : float) : float := SFsub prec emax x y.
Definition mul (x y : float) : float := SFmul prec emax x y.

Definition is_zero (x : float) : bool :=
  match x with
  | S754_zero _ => true
  | _ => false
  end.

(** [x / y] on floats. *)
Definition div (x y : float) : result float :=
  if is_zero y then raise ZeroDivisionError else ok (SFdiv prec emax x y).

(** [a / b] on two [int]s: the quotient of the integers, rounded
    once. *)
Definition int_div (a b : Z) : result float :=
  let raw (n : Z) : float :=
    match n with
    | Z0 => S754_zero false
    | Zpos m => S754_finite false m 0
    | Zneg m => S754_finite true m 0
    end in
  if (b =? 0)%Z then raise ZeroDivisionError
  else finite_or_overflow (SFdiv prec emax (raw a) (raw b)).

(** [int(x)] for a float: the digits in front of the point. *)
Definition to_int (x : float) : result Z :=
  match x with
  | S754_zero _ => ok 0%Z
  | S754_finite s m e =>
      let a := match e with
               | Zneg p => Z.quot (Zpos m) (Zpos (2 ^ p))
               | _ => (Zpos m * 2 ^ e)%Z
               end in
      ok (if s then (- a)%Z else a)
  | S754_infinity _ => raise OverflowError
  | S754_nan => raise ValueError
  end.


(** [tps = int(bpm)*4/60]. *)
Definition ticksPerSecond (bpm : float) : result float :=
  n <- to_int bpm ;;
  int_div (n * 4) 60.

(** [((gap/1000) + int(line[1])/tps - 0.5/tps) * 1000/32], the value
    [int()] is applied to on line 163. *)
Definition startTime (gap tps : float) (start : Z) : result float :=
  k <- of_int 1000 ;;
  g <- div gap k ;;
  t <- of_int start ;;
  a <- div t tps ;;
  h <- div (literal 1 (-1)) tps ;;
  w <- of_int 32 ;;
  div (mul (sub (add g a) h) k) w.

(** The same for line 164, with [int(line[1]) + int(line[2])]. *)
Definition endTime (gap tps : float) (start duration : Z) : result float :=
  k <- of_int 1000 ;;
  g <- div gap k ;;
  t <- of_int (start + duration) ;;
  a <- div t tps ;;
  h <- div (literal 1 (-1)) tps ;;
  w <- of_int 32 ;;
  div (mul (add (add g a) h) k) w.

Definition startFrame (gap tps : float) (start : Z) : result Z :=
  v <- startTime gap tps start ;;
  to_int v.

Definition endFrame (gap tps : float) (start duration : Z) : result Z :=
  v <- endTime gap tps start duration ;;
  to_int v.

(** The frames of a note for a BPM and a GAP that are whole numbers. *)
Definition frames (bpm gap start duration : Z) : result (Z * Z) :=
  b <- of_int bpm ;;
  g <- of_int gap ;;
  tps <- ticksPerSecond b ;;
  s <- startFrame g tps start ;;
  e <- endFrame g tps start duration ;;
  ok (s, e).

End B64.

(** * Properties *)

Unset Implicit Arguments.

(** ** The pitch-to-note conversion *)

Section Converter.

Local Open Scope R_scope.

Lemma Int_part_le (x y : R) : x <= y -> (Int_part x <= Int_part y)%Z.
Proof.
  intros Hxy.
  destruct (base_Int_part x) as [Hx1 Hx2].
  destruct (base_Int_part y) as [Hy1 Hy2].
  destruct (Z_le_gt_dec (Int_part x) (Int_part y)) as [Hle | Hgt]; [exact Hle |].
  assert (H : IZR (Int_part y + 1) <= IZR (Int_part x)) by (apply IZR_le; lia).
  rewrite plus_IZR in H. lra.
Qed.

Lemma round_between (x : R) :
  (Int_part x <= Np.round x <= Int_part x + 1)%Z.
Proof.
  unfold Np.round.
  destruct (Rlt_dec _ _); [lia |].
  destruct (Rlt_dec _ _); [lia |].
  destruct (Z.even _); lia.
Qed.

(** Rounding to the nearest integer never reverses an order. *)
Lemma round_monotone (x y : R) : x <= y -> (Np.round x <= Np.round y)%Z.
Proof.
  intros Hxy.
  pose proof (Int_part_le x y Hxy) as Hfl.
  destruct (Z.eq_dec (Int_part x) (Int_part y)) as [Heq | Hne].
  - unfold Np.round. rewrite Heq.
    destruct (Rlt_dec (x - IZR (Int_part y)) (1 / 2));
      destruct (Rlt_dec (y - IZR (Int_part y)) (1 / 2));
      destruct (Rlt_dec (1 / 2) (x - IZR (Int_part y)));
      destruct (Rlt_dec (1 / 2) (y - IZR (Int_part y)));
      destruct (Z.even (Int_part y)); try lia; exfalso; lra.
  - pose proof (round_between x). pose proof (round_between y). lia.
Qed.

Lemma pitch2hz_positive (p : R) : 0 < pitch2hz p.
Proof.
  unfold pitch2hz, FMIN, Rpower.
  apply Rmult_lt_0_compat; [lra | apply exp_pos].
Qed.

Lemma pitch2hz_increasing (p1 p2 : R) : p1 < p2 -> pitch2hz p1 < pitch2hz p2.
Proof.
  intros Hlt. unfold pitch2hz, FMIN, BINS_PER_OCTAVE, PT_SLOPE, PT_OFFSET.
  apply Rmult_lt_compat_l; [lra |].
  apply Rpower_lt; lra.
Qed.

Lemma hz2note_monotone (h1 h2 : R) :
  0 < h1 -> h1 <= h2 -> (hz2note h1 <= hz2note h2)%Z.
Proof.
  intros Hpos Hle. unfold hz2note.
  apply Z.sub_le_mono_r, round_monotone.
  assert (Hc : 0 < Rpower 2 (3 / 4)) by (unfold Rpower; apply exp_pos).
  assert (Hln2 : 0 < ln 2) by (pose proof ln_lt_2; lra).
  assert (Hlog : ln (4 * h1 / 55 * Rpower 2 (3 / 4))
                 <= ln (4 * h2 / 55 * Rpower 2 (3 / 4))).
  { destruct Hle as [Hlt | Heq]; [| subst; lra].
    left. apply ln_increasing.
    - apply Rmult_lt_0_compat; [lra | exact Hc].
    - apply Rmult_lt_compat_r; [exact Hc | lra]. }
  unfold Rdiv. apply Rmult_le_compat_r.
  - left. apply Rinv_0_lt_compat, Hln2.
  - lra.
Qed.

End Converter.

(** C8. For p1 < p2 in [0,1], the note of the frequency of p1 is at
    most the note of the frequency of p2: the composition of [pitch2hz]
    and [hz2note] is non-decreasing. *)
Theorem note_of_pitch_monotone (p1 p2 : R) :
  (0 <= p1)%R -> (p1 < p2)%R -> (p2 <= 1)%R ->
  (hz2note (pitch2hz p1) <= hz2note (pitch2hz p2))%Z.
Proof.
  intros _ Hlt _.
  apply hz2note_monotone.
  - apply pitch2hz_positive.
  - left. apply pitch2hz_increasing, Hlt.
Qed.

Lemma note_of_pitch_monotone_witness :
  (hz2note (pitch2hz 0) <= hz2note (pitch2hz 1))%Z.
Proof.
  apply (note_of_pitch_monotone 0 1); lra.
Defined.

(** ** [int()], the tick rate and the frame numbers *)

Lemma int_of_float_nonneg (x : Q) : 0 <= x -> Py.int_of_float x = Qfloor x.
Proof.
  destruct x as [n d]. unfold Qle, Py.int_of_float. simpl. intros Hn.
  apply Z.quot_div_nonneg; lia.
Qed.

Lemma int_of_float_nonpos (x : Q) : x <= 0 -> Py.int_of_float x = Qceiling x.
Proof.
  destruct x as [n d]. unfold Qle, Qceiling, Py.int_of_float. simpl. intros Hn.
  rewrite <- (Z.opp_involutive n) at 1.
  rewrite Z.quot_opp_l by lia.
  rewrite Z.quot_div_nonneg by lia. reflexivity.
Qed.

(** [int()] is the floor of a value that is not negative and the
    ceiling of a negative one. *)
Lemma int_of_float_toward_zero (x : Q) :
  Py.int_of_float x = if Qle_bool 0 x then Qfloor x else Qceiling x.
Proof.
  destruct (Qle_bool 0 x) eqn:Hx.
  - apply int_of_float_nonneg, Qle_bool_iff, Hx.
  - apply int_of_float_nonpos.
    destruct (Qlt_le_dec x 0) as [Hlt | Hle].
    + apply Qlt_le_weak, Hlt.
    + apply Qle_bool_iff in Hle. congruence.
Qed.



(** What [pitch] computes once the header holds both tags. *)
Lemma pitch_with_tags {builtins : Builtins} (c : Q) (metaData : list string)
      (lyrics : list (list string)) (out : modelOutput) (b g : Q) :
  pitch_tags metaData None None = ok (Some b, Some g) ->
  pitch c metaData lyrics out =
  for_each (pitch_line c g (ticksPerSecond b) (mo_pitch out)
                       (map (fun u => 1 - u) (mo_uncertainty out))) lyrics.
Proof.
  intros Htags. unfold pitch. rewrite Htags. reflexivity.
Qed.

(** The frame numbers in exact arithmetic.  For a tick rate that is
    not zero they are the truncation toward zero of startSec*1000/32 and
    endSec*1000/32, with the tick rate taken from the integer part of
    the BPM: the floor when the value is not negative, the ceiling when
    it is.  For BPM 120, GAP 0, start tick 0 and duration 4 the start
    frame is -1 and the end frame 17. *)
Theorem time_to_frame_truncates :
  (forall (gap bpm : Q) (start duration : Z),
      Qeq_bool (ticksPerSecond bpm) 0 = false ->
      let tps := ticksPerSecond bpm in
      let s := Spec.startSec gap tps start * 1000 / 32 in
      let e := Spec.endSec gap tps start duration * 1000 / 32 in
      startFrame gap tps start = (if Qle_bool 0 s then Qfloor s else Qceiling s)
      /\ endFrame gap tps start duration
         = (if Qle_bool 0 e then Qfloor e else Qceiling e))
  /\ startFrame 0 (ticksPerSecond 120) 0 = (-1)%Z
  /\ endFrame 0 (ticksPerSecond 120) 0 4 = 17%Z.
Proof.
  split; [| split; reflexivity].
  intros gap bpm start duration _ tps s e.
  split; apply int_of_float_toward_zero.
Qed.

Lemma time_to_frame_truncates_witness :
  let tps := ticksPerSecond (301 # 2) in
  startFrame 0 tps 0 = Qceiling (Spec.startSec 0 tps 0 * 1000 / 32)
  /\ endFrame 0 tps 0 8 = Qfloor (Spec.endSec 0 tps 0 8 * 1000 / 32).
Proof.
  exact (proj1 time_to_frame_truncates 0 (301 # 2) 0%Z 8%Z eq_refl).
Defined.

(** At the fixture the start frame in exact arithmetic is not the
    floor, which is -2. *)
Lemma time_to_frame_floor_counterexample :
  Spec.startFrame 0 (Spec.ticksPerSecond 120) 0 32 = (-2)%Z
  /\ startFrame 0 (ticksPerSecond 120) 0
     <> Spec.startFrame 0 (Spec.ticksPerSecond 120) 0 32.
Proof.
  split; [reflexivity | discriminate].
Qed.




(** ** Slices *)

Lemma slice_index_bounds (n i : Z) :
  (0 <= n -> 0 <= Py.slice_index n i <= n)%Z.
Proof.
  unfold Py.slice_index. destruct (Z.ltb_spec i 0); lia.
Qed.

(** An index that is not negative is clamped to the length. *)
Lemma slice_index_nonneg (n i : Z) :
  (0 <= n -> 0 <= i -> Py.slice_index n i = Spec.clamp n i)%Z.
Proof.
  unfold Py.slice_index, Spec.clamp. destruct (Z.ltb_spec i 0); lia.
Qed.

(** An index at or below [-n] is clamped to 0. *)
Lemma slice_index_far_negative (n i : Z) :
  (0 <= n -> i <= - n -> Py.slice_index n i = Spec.clamp n i)%Z.
Proof.
  unfold Py.slice_index, Spec.clamp. destruct (Z.ltb_spec i 0); lia.
Qed.

(** A range whose two indices are not negative selects the frames of
    the clamped range; in particular a stop past the end selects the
    same frames as the length. *)
Lemma slice_nonneg_clamped {A} (l : list A) (start stop : Z) :
  (0 <= start)%Z -> (0 <= stop)%Z ->
  Py.slice l start stop = Spec.clamped_slice l start stop.
Proof.
  intros Hs He. unfold Py.slice, Spec.clamped_slice.
  rewrite !slice_index_nonneg by lia. reflexivity.
Qed.

Lemma slice_stop_past_end {A} (l : list A) (start stop : Z) :
  (Z.of_nat (List.length l) <= stop)%Z ->
  Py.slice l start stop = Py.slice l start (Z.of_nat (List.length l)).
Proof.
  intros He. unfold Py.slice. f_equal. f_equal. f_equal.
  unfold Py.slice_index.
  destruct (Z.ltb_spec stop 0); destruct (Z.ltb_spec (Z.of_nat (List.length l)) 0); lia.
Qed.

Lemma firstn_as_nth {A} (d : A) (l : list A) (k : nat) :
  (k <= List.length l)%nat ->
  firstn k l = map (fun i => nth i l d) (seq 0 k).
Proof.
  revert k. induction l as [| a l IH]; intros [| k] Hk; simpl in *; try reflexivity.
  - lia.
  - rewrite <- seq_shift, map_map. f_equal. apply IH. lia.
Qed.

Lemma firstn_skipn_as_nth {A} (d : A) (l : list A) (lo k : nat) :
  (lo + k <= List.length l)%nat ->
  firstn k (skipn lo l) = map (fun i => nth i l d) (seq lo k).
Proof.
  revert l. induction lo as [| lo IH]; intros l Hk.
  - apply firstn_as_nth. exact Hk.
  - destruct l as [| a l]; simpl in Hk.
    + assert (k = 0)%nat by lia. subst k. reflexivity.
    + simpl skipn. rewrite <- seq_shift, map_map. simpl. apply IH. lia.
Qed.

(** A slice holds the elements at the indices [slice_frames], in order. *)
Lemma slice_as_frames {A} (d : A) (l : list A) (start stop : Z) :
  Py.slice l start stop =
  map (fun i => nth i l d) (slice_frames (List.length l) start stop).
Proof.
  unfold Py.slice, slice_frames.
  set (n := Z.of_nat (List.length l)).
  assert (Hn : (0 <= n)%Z) by (unfold n; lia).
  pose proof (slice_index_bounds n start Hn) as Hlo.
  pose proof (slice_index_bounds n stop Hn) as Hhi.
  apply firstn_skipn_as_nth. unfold n in *. lia.
Qed.

Lemma mask_as_filter {A B} (f : B -> A) (g : B -> bool) (l : list B) :
  Np.mask (map f l) (map g l) = ok (map f (filter g l)).
Proof.
  induction l as [| x l IH]; simpl; [reflexivity |].
  rewrite IH. simpl. destruct (g x); reflexivity.
Qed.

(** The pitches kept for a note: those of the frames of the slice whose
    confidence, one minus the uncertainty, is at least [c]. *)
Lemma confident_pitches_as_filter (c : Q) (pitch uncertainty : list Q)
      (start stop : Z) :
  List.length pitch = List.length uncertainty ->
  confident_pitches c pitch (map (fun u => 1 - u) uncertainty) start stop =
  ok (map (fun i => nth i pitch 0)
          (filter (fun i => Qle_bool c (1 - nth i uncertainty 0))
                  (slice_frames (List.length pitch) start stop))).
Proof.
  intros Hlen. unfold confident_pitches.
  rewrite (slice_as_frames 0 pitch).
  rewrite (slice_as_frames (1 - 0) (map (fun u => 1 - u) uncertainty)).
  rewrite length_map, <- Hlen, map_map.
  rewrite <- mask_as_filter. f_equal.
  apply map_ext. intros i.
  rewrite (map_nth (fun u => 1 - u)). reflexivity.
Qed.

(** C1 (the code at a failing input). With BPM 120 and GAP 0 the note
    at tick 0 of duration 4 is mapped to the range -1..17.  On a series
    of 20 frames the slice from -1 to 17 starts at frame 19 and is empty,
    where the clamped range holds the first 17 frames; on a series of 5
    frames it holds the last frame only, where the clamped range holds
    all five. *)
Theorem slice_negative_start_counts_from_end :
  let pitch := map (fun i => Z.of_nat i # 100) (seq 0 20) in
  let confidence := repeat 1 20 in
  startFrame 0 (ticksPerSecond 120) 0 = (-1)%Z
  /\ endFrame 0 (ticksPerSecond 120) 0 4 = 17%Z
  /\ Py.slice pitch (-1) 17 = []
  /\ Spec.clamped_slice pitch (-1) 17 = firstn 17 pitch
  /\ Py.slice pitch 0 17 = firstn 17 pitch
  /\ confident_pitches (85 # 100) pitch confidence (-1) 17 = ok []
  /\ Py.slice [1 # 10; 2 # 10; 3 # 10; 4 # 10; 5 # 10] (-1) 17 = [5 # 10]
  /\ Spec.clamped_slice [1 # 10; 2 # 10; 3 # 10; 4 # 10; 5 # 10] (-1) 17
     = [1 # 10; 2 # 10; 3 # 10; 4 # 10; 5 # 10].
Proof.
  vm_compute. repeat split.
Qed.

(** The same input through [pitch_line]: every frame is confident, yet
    the note written is 0. *)
Example first_note_without_frames :
  pitch_line (85 # 100) 0 (ticksPerSecond 120)
             (repeat (1 # 2) 20) (repeat 1 20)
             [":"; "0"; "4"; "7"; "la" ++ LF]%string
  = ok [":"; "0"; "4"; "0"; "la" ++ LF]%string.
Proof. reflexivity. Qed.

(** ** The aggregator *)

(** The frames of a range whose two indices are not negative: the
    indices from [start] up to, not including, [stop] that the series
    has. *)
Lemma slice_frames_in_range (n : nat) (start stop : Z) (i : nat) :
  (0 <= start)%Z -> (0 <= stop)%Z ->
  In i (slice_frames n start stop)
  <-> (start <= Z.of_nat i < stop)%Z /\ (i < n)%nat.
Proof.
  intros Hs He. unfold slice_frames. rewrite in_seq.
  rewrite !slice_index_nonneg by lia. unfold Spec.clamp. lia.
Qed.

(** In exact arithmetic, for a sung note the pitches selected are those
    of the frames of the slice whose confidence, 1 - uncertainty, is at
    least the threshold; with none selected the note written is 0,
    otherwise it is [hz2note (pitch2hz m)] for the median [m] of the
    selected pitches.  The frames of the slice are those of the mapped
    range when neither end of the range is negative. *)
Theorem aggregator_selects_confident_frames {builtins : Builtins}
        (c gap tps : Q) (pitch uncertainty : list Q)
        (l0 l1 l2 l3 l4 : string) (rest : list string) (t d : Z) :
  Py.startswith "-" l0 = false ->
  Py.startswith "E" l0 = false ->
  py_int l1 = Some t ->
  py_int l2 = Some d ->
  Qeq_bool tps 0 = false ->
  List.length pitch = List.length uncertainty ->
  let start := startFrame gap tps t in
  let stop := endFrame gap tps t d in
  let frames := slice_frames (List.length pitch) start stop in
  let selected :=
    map (fun i => nth i pitch 0)
        (filter (fun i => Qle_bool c (1 - nth i uncertainty 0)) frames) in
  pitch_line c gap tps pitch (map (fun u => 1 - u) uncertainty)
             (l0 :: l1 :: l2 :: l3 :: l4 :: rest)
  = ok [l0; l1; l2;
        Py.str (match selected with
                | [] => 0%Z
                | _ :: _ => hz2note (pitch2hz (Q2R (Np.median selected)))
                end);
        l4]
  /\ ((0 <= start)%Z -> (0 <= stop)%Z ->
      forall i, In i frames
                <-> (start <= Z.of_nat i < stop)%Z
                    /\ (i < List.length pitch)%nat).
Proof.
  intros Hbreak Hend Ht Hd Htps Hlen start stop frames selected.
  split.
  - unfold pitch_line. simpl. rewrite Hbreak, Hend.
    unfold pitch_note. simpl. rewrite Ht. simpl. rewrite Htps, Hd. simpl.
    rewrite confident_pitches_as_filter by exact Hlen.
    reflexivity.
  - intros Hs He i. apply slice_frames_in_range; assumption.
Qed.

Lemma aggregator_selects_confident_frames_witness :
  let pitch := [1 # 10; 2 # 10; 3 # 10; 4 # 10] in
  let uncertainty := [1 # 10; 9 # 10; 0; 1 # 2] in
  pitch_line (85 # 100) 64 (ticksPerSecond 120) pitch
             (map (fun u => 1 - u) uncertainty)
             [":"; "0"; "4"; "7"; "la" ++ LF]%string
  = ok [":"%string; "0"%string; "4"%string;
        Py.str (hz2note (pitch2hz (Q2R (Np.median [1 # 10; 3 # 10]))));
        ("la" ++ LF)%string]
  /\ (In 2%nat (slice_frames 4 0 19)
      <-> (0 <= Z.of_nat 2 < 19)%Z /\ (2 < 4)%nat).
Proof.
  intros pitch uncertainty.
  pose proof (@aggregator_selects_confident_frames decimal_builtins
                (85 # 100) 64 (ticksPerSecond 120) pitch uncertainty
                ":"%string "0"%string "4"%string "7"%string ("la" ++ LF)%string
                [] 0%Z 4%Z eq_refl eq_refl eq_refl eq_refl eq_refl eq_refl)
    as [Hline Hrange].
  split.
  - exact Hline.
  - apply (Hrange ltac:(vm_compute; discriminate) ltac:(vm_compute; discriminate)).
Defined.

(** ** The chart parser *)

Lemma split_not_nil (sep : ascii) (s : string) : Py.split sep s <> [].
Proof.
  destruct s as [| c s]; simpl; [discriminate |].
  destruct (Ascii.eqb c sep); [discriminate |].
  destruct (Py.split sep s); discriminate.
Qed.

(** A token without the separator, followed by the separator, is the
    first token of the split. *)
Lemma split_token (sep : ascii) (tok rest : string) :
  Py.split sep tok = [tok] ->
  Py.split sep (tok ++ String sep rest) = tok :: Py.split sep rest.
Proof.
  induction tok as [| c tok IH]; simpl.
  - intros _. rewrite Ascii.eqb_refl. reflexivity.
  - destruct (Ascii.eqb c sep); [discriminate |].
    destruct (Py.split sep tok) as [| t ts] eqn:Hsplit.
    + exfalso. exact (split_not_nil _ _ Hsplit).
    + intros Heq. injection Heq as Ht Hts. subst t ts.
      rewrite IH by reflexivity. reflexivity.
Qed.

(** The tokens of a line joined from tokens without spaces. *)
Lemma split_join (sep : ascii) (toks : list string) :
  toks <> [] ->
  Forall (fun tok => Py.split sep tok = [tok]) toks ->
  Py.split sep (Py.join sep toks) = toks.
Proof.
  induction toks as [| tok toks IH]; [congruence |].
  intros _ Hall. inversion Hall as [| ? ? Htok Hrest]; subst.
  destruct toks as [| tok' toks].
  - exact Htok.
  - change (Py.join sep (tok :: tok' :: toks))
      with (tok ++ String sep (Py.join sep (tok' :: toks)))%string.
    rewrite split_token by exact Htok.
    rewrite IH; [reflexivity | discriminate | exact Hrest].
Qed.

(** What the parser stores for a line of exactly six raw tokens. *)
Lemma loadFile_split_six (line t1 t2 t3 t4 t5 t6 : string) :
  Py.split " " line = [t1; t2; t3; t4; t5; t6] ->
  loadFile_split line = ok [t1; t2; t3; t4; (" " ++ t6)%string].
Proof.
  intros Hsplit. unfold loadFile_split. rewrite Hsplit. reflexivity.
Qed.

(** For a line of exactly six raw tokens the stored text is a space
    followed by the sixth token.  A text field that is a space and a
    word, so that the fifth raw token is empty, is stored exactly, with
    its space. *)
Theorem six_tokens_text_keeps_leading_space :
  (forall line t1 t2 t3 t4 t5 t6 : string,
      Py.split " " line = [t1; t2; t3; t4; t5; t6] ->
      loadFile_split line = ok [t1; t2; t3; t4; (" " ++ t6)%string])
  /\ (forall t1 t2 t3 t4 word : string,
         no_space t1 -> no_space t2 -> no_space t3 -> no_space t4 ->
         no_space word ->
         let text := (" " ++ word)%string in
         Py.split " " (Py.join " " [t1; t2; t3; t4; text])
         = [t1; t2; t3; t4; EmptyString; word]
         /\ loadFile_split (Py.join " " [t1; t2; t3; t4; text])
            = ok [t1; t2; t3; t4; text]).
Proof.
  split.
  - exact loadFile_split_six.
  - intros t1 t2 t3 t4 word H1 H2 H3 H4 Hw text.
    assert (Hsplit : Py.split " " (Py.join " " [t1; t2; t3; t4; text])
                     = [t1; t2; t3; t4; EmptyString; word]).
    { change (Py.join " " [t1; t2; t3; t4; text])
        with (Py.join " " [t1; t2; t3; t4; EmptyString; word]).
      apply split_join; [discriminate |].
      repeat constructor; assumption. }
    split; [exact Hsplit |].
    apply (loadFile_split_six _ _ _ _ _ _ _ Hsplit).
Qed.

Lemma six_tokens_text_keeps_leading_space_witness :
  loadFile_split (": 0 4 0  la" ++ LF)
  = ok [":"; "0"; "4"; "0"; " la" ++ LF]%string.
Proof.
  apply (proj2 six_tokens_text_keeps_leading_space
               ":"%string "0"%string "4"%string "0"%string ("la" ++ LF)%string);
    reflexivity.
Defined.

(** A fifth raw token that is not empty is not part of the stored
    text. *)
Lemma six_tokens_rejoin_counterexample :
  let line := (": 0 4 0 hello world" ++ LF)%string in
  Py.split " " line = [":"; "0"; "4"; "0"; "hello"; "world" ++ LF]%string
  /\ loadFile_split line = ok [":"; "0"; "4"; "0"; " world" ++ LF]%string
  /\ loadFile_split line
     <> ok [":"; "0"; "4"; "0"; "hello" ++ " " ++ ("world" ++ LF)]%string.
Proof.
  repeat split. discriminate.
Qed.

(** ** The driver *)

(** The five ways a run can go: where it stops, what was done before. *)
Lemma main_outcomes {builtins : Builtins} (c : Q) (lines : list string)
      (audio : result modelOutput) :
  main c lines audio =
  match loadFile lines with
  | inl e => ([ReadChart], inl e)
  | inr (metaData, lyrics) =>
      match audio with
      | inl e => ([ReadChart; LoadAudio], inl e)
      | inr out =>
          match pitch c metaData lyrics out with
          | inl e => ([ReadChart; LoadAudio; PrepareAudio; Analyze], inl e)
          | inr lyricsPitched =>
              match for_each writeFile_line lyricsPitched with
              | inl e =>
                  ([ReadChart; LoadAudio; PrepareAudio; Analyze; CreateDest],
                   inl e)
              | inr lyricsString =>
                  ([ReadChart; LoadAudio; PrepareAudio; Analyze; CreateDest;
                    WriteLines metaData; WriteLines lyricsString], ok tt)
              end
          end
      end
  end.
Proof.
  unfold main, writeFile, lift, emit, run_bind.
  destruct (loadFile lines) as [e | [metaData lyrics]]; [reflexivity |].
  destruct audio as [e | out]; [reflexivity |].
  destruct (pitch c metaData lyrics out) as [e | lyricsPitched]; [reflexivity |].
  destruct (for_each writeFile_line lyricsPitched) as [e | [ | ]]; reflexivity.
Qed.

Lemma loadFile_metaData_filter (lines metaData : list string) :
  loadFile_metaData lines = ok metaData ->
  metaData = filter starts_with_hash lines.
Proof.
  revert metaData. induction lines as [| line lines IH]; simpl; intros metaData H.
  - injection H as <-. reflexivity.
  - destruct line as [| ch line]; simpl in H; [discriminate |].
    destruct (loadFile_metaData lines) as [e | md]; simpl in H; [discriminate |].
    injection H as <-. simpl. rewrite (IH md eq_refl). reflexivity.
Qed.

(** The metadata [loadFile] returns: the lines that start with [#], as
    they are and in their order. *)
Lemma loadFile_metaData_verbatim (lines metaData : list string)
      (lyrics : list (list string)) :
  loadFile lines = ok (metaData, lyrics) ->
  metaData = filter starts_with_hash lines.
Proof.
  unfold loadFile. intros H.
  destruct (loadFile_metaData lines) as [e | md] eqn:Hmd; simpl in H; [discriminate |].
  destruct (loadFile_lyrics lines) as [e | ly]; simpl in H; [discriminate |].
  injection H as <- _. apply loadFile_metaData_filter, Hmd.
Qed.

Lemma has_tag_filter (tag : string) (f : string -> bool) (lines : list string) :
  has_tag tag lines = false -> has_tag tag (filter f lines) = false.
Proof.
  unfold has_tag. induction lines as [| line lines IH]; simpl; [reflexivity |].
  intros H. apply orb_false_iff in H as [Hline Hrest].
  destruct (f line); simpl; [rewrite Hline |]; auto.
Qed.

(** The header loop leaves a value as it was when no line has its tag. *)
Lemma pitch_tags_missing {builtins : Builtins} (metaData : list string)
      (bpm gap bpm' gap' : option Q) :
  pitch_tags metaData bpm gap = ok (bpm', gap') ->
  (has_tag "#BPM" metaData = false -> bpm' = bpm)
  /\ (has_tag "#GAP" metaData = false -> gap' = gap).
Proof.
  unfold has_tag.
  revert bpm gap. induction metaData as [| line rest IH];
    cbn [pitch_tags existsb]; intros bpm gap H.
  - injection H as <- <-. auto.
  - destruct (String.eqb (Py.take 4 line) "#BPM") eqn:Hb;
      destruct (String.eqb (Py.take 4 line) "#GAP") eqn:Hg;
      destruct (py_float (Py.drop 5 line)) as [v |];
      cbn [bind value_of ok raise] in H;
        try discriminate; apply IH in H as [H1 H2];
          split; intros Hno; try discriminate; auto.
Qed.

(** Without a [#BPM] or without a [#GAP] line [pitch] raises. *)
Lemma pitch_missing_tag {builtins : Builtins} (c : Q) (metaData : list string)
      (lyrics : list (list string)) (out : modelOutput) :
  has_tag "#BPM" metaData = false \/ has_tag "#GAP" metaData = false ->
  exists e, pitch c metaData lyrics out = inl e.
Proof.
  intros Hno. unfold pitch.
  destruct (pitch_tags metaData None None) as [e | [bpm gap]] eqn:Htags;
    [exists e; reflexivity |].
  destruct (pitch_tags_missing _ _ _ _ _ Htags) as [Hb Hg]. simpl.
  destruct bpm as [b |]; [| exists TypeError; reflexivity]. simpl.
  destruct gap as [g |]; [| exists Exit_NoGapTag; reflexivity].
  destruct Hno as [Hno | Hno]; [apply Hb in Hno | apply Hg in Hno]; discriminate.
Qed.

(** C5 (as the code has it). A run on a chart without a [#BPM] or
    without a [#GAP] line ends in an error and creates no destination
    file.  When the chart and the audio load and the header holds a BPM
    but no GAP, the error is the missing-tag exit, raised by [pitch]
    after the audio was loaded, prepared and analysed. *)
Theorem missing_tag_aborts_without_output {builtins : Builtins} (c : Q)
        (lines : list string) (audio : result modelOutput) :
  has_tag "#BPM" lines = false \/ has_tag "#GAP" lines = false ->
  (exists e, snd (main c lines audio) = inl e)
  /\ existsb is_output (fst (main c lines audio)) = false
  /\ dest_after (fst (main c lines audio)) None = None
  /\ (forall metaData lyrics out b,
         loadFile lines = ok (metaData, lyrics) ->
         audio = ok out ->
         pitch_tags metaData None None = ok (Some b, None) ->
         main c lines audio
         = ([ReadChart; LoadAudio; PrepareAudio; Analyze], inl Exit_NoGapTag)).
Proof.
  intros Hno. rewrite main_outcomes.
  destruct (loadFile lines) as [e | [metaData lyrics]] eqn:Hload.
  { repeat split; try reflexivity; [eexists; reflexivity | discriminate]. }
  destruct audio as [e | out].
  { repeat split; try reflexivity; [eexists; reflexivity | discriminate]. }
  assert (Hno' : has_tag "#BPM" metaData = false \/ has_tag "#GAP" metaData = false).
  { rewrite (loadFile_metaData_verbatim _ _ _ Hload).
    destruct Hno as [H | H]; [left | right]; apply has_tag_filter, H. }
  destruct (pitch_missing_tag c metaData lyrics out Hno') as [e He]. rewrite He.
  repeat split; try reflexivity; [eexists; reflexivity |].
  intros md ly out' b Hmd Hout Htags.
  injection Hmd as <- <-. injection Hout as <-.
  unfold pitch in He. rewrite Htags in He. simpl in He.
  injection He as <-. reflexivity.
Qed.

Lemma missing_tag_aborts_without_output_witness :
  let out := {| mo_pitch := repeat (1 # 2) 20; mo_uncertainty := repeat 0 20 |} in
  let lines := ["#BPM:120" ++ LF; ": 0 4 0 la" ++ LF; "E" ++ LF]%string in
  main (85 # 100) lines (ok out)
  = ([ReadChart; LoadAudio; PrepareAudio; Analyze], inl Exit_NoGapTag).
Proof.
  intros out lines.
  refine (proj2 (proj2 (proj2
           (@missing_tag_aborts_without_output decimal_builtins (85 # 100)
              lines (ok out) (or_intror eq_refl))))
           ["#BPM:120" ++ LF]%string
           [[":"; "0"; "4"; "0"; "la" ++ LF]; ["E" ++ LF]]%string
           out 120 eq_refl eq_refl eq_refl).
Defined.

(** C5, the claim as worded fails: the missing tag is found only after
    the audio work. *)
Lemma missing_tag_after_audio_counterexample :
  let out := {| mo_pitch := repeat (1 # 2) 20; mo_uncertainty := repeat 0 20 |} in
  let lines := ["#BPM:120" ++ LF; ": 0 4 0 la" ++ LF; "E" ++ LF]%string in
  has_tag "#GAP" lines = false
  /\ snd (main (85 # 100) lines (ok out)) = inl Exit_NoGapTag
  /\ ~ existsb is_audio_work (fst (main (85 # 100) lines (ok out))) = false.
Proof.
  repeat split. discriminate.
Qed.

(** ** Malformed lines *)

Lemma loadFile_split_long (line : string) :
  (6 < List.length (Py.split " " line))%nat ->
  loadFile_split line = inl (Exit_InvalidFormat line).
Proof.
  intros Hlen. unfold loadFile_split.
  destruct (Nat.eqb_spec (List.length (Py.split " " line)) 6) as [Heq | _]; [lia |].
  destruct (Nat.ltb_spec 6 (List.length (Py.split " " line))); [reflexivity | lia].
Qed.

Lemma loadFile_split_accepts (line : string) :
  (List.length (Py.split " " line) <= 6)%nat ->
  exists toks, loadFile_split line = ok toks.
Proof.
  intros Hlen. unfold loadFile_split.
  destruct (Nat.eqb_spec (List.length (Py.split " " line)) 6) as [Heq | Hne].
  - destruct (Py.pop EmptyString (Py.split " " line)). eexists. reflexivity.
  - destruct (Nat.ltb_spec 6 (List.length (Py.split " " line))); [lia |].
    eexists. reflexivity.
Qed.

(** The parser stores a line of fewer than five tokens as it is. *)
Lemma loadFile_split_short (line : string) :
  (List.length (Py.split " " line) < 5)%nat ->
  loadFile_split line = ok (Py.split " " line).
Proof.
  intros Hlen. unfold loadFile_split.
  destruct (Nat.eqb_spec (List.length (Py.split " " line)) 6) as [Heq | _]; [lia |].
  destruct (Nat.ltb_spec 6 (List.length (Py.split " " line))); [lia | reflexivity].
Qed.

Lemma loadFile_metaData_total (lines : list string) :
  Forall (fun line => line <> EmptyString) lines ->
  loadFile_metaData lines = ok (filter starts_with_hash lines).
Proof.
  induction 1 as [| line lines Hline _ IH]; simpl; [reflexivity |].
  destruct line as [| ch line]; [congruence |]. simpl.
  rewrite IH. reflexivity.
Qed.

(** The second loop stops at the first line of more than six tokens. *)
Lemma loadFile_lyrics_rejects (lines : list string) (line : string) :
  Forall (fun l => l <> EmptyString) lines ->
  In line lines ->
  starts_with_hash line = false ->
  (6 < List.length (Py.split " " line))%nat ->
  exists bad,
    In bad lines /\ starts_with_hash bad = false
    /\ (6 < List.length (Py.split " " bad))%nat
    /\ loadFile_lyrics lines = inl (Exit_InvalidFormat bad).
Proof.
  intros Hall. revert line.
  induction Hall as [| first lines Hfirst _ IH]; intros line Hin Hmeta Hlen;
    [contradiction |].
  destruct first as [| ch first]; [congruence |].
  cbn [loadFile_lyrics is_metadata Py.first_char bind ok].
  destruct (Ascii.eqb ch "#") eqn:Hch.
  - destruct Hin as [<- | Hin]; [simpl in Hmeta; congruence |].
    destruct (IH line Hin Hmeta Hlen) as (bad & Hbad & Hrest).
    exists bad. split; [right; exact Hbad | exact Hrest].
  - destruct (le_lt_dec (List.length (Py.split " " (String ch first))) 6)
      as [Hshort | Hlong].
    + destruct (loadFile_split_accepts _ Hshort) as [toks ->].
      destruct Hin as [<- | Hin]; [lia |].
      destruct (IH line Hin Hmeta Hlen) as (bad & Hbad & Hm & Hl & Hrest).
      exists bad. rewrite Hrest. repeat split; auto. right; exact Hbad.
    + exists (String ch first). rewrite (loadFile_split_long _ Hlong).
      repeat split; auto. left; reflexivity.
Qed.

(** A sung-note candidate of fewer than five fields is refused by the
    pitching loop. *)
Lemma pitch_line_short {builtins : Builtins} (c gap tps : Q)
      (pitch confidence : list Q) (l0 : string) (rest : list string) :
  Py.startswith "-" l0 = false ->
  Py.startswith "E" l0 = false ->
  (List.length (l0 :: rest) < 5)%nat ->
  pitch_line c gap tps pitch confidence (l0 :: rest)
  = inl (Exit_InvalidLine (l0 :: rest)).
Proof.
  intros Hbreak Hend Hlen. unfold pitch_line.
  cbn [Py.getitem nth_error bind ok]. rewrite Hbreak, Hend.
  unfold pitch_note.
  destruct (Nat.ltb_spec (List.length (l0 :: rest)) 5); [reflexivity | lia].
Qed.

Lemma for_each_first_error {A B} (f : A -> result B) (before : list A)
      (x : A) (after : list A) (done : list B) (e : error) :
  for_each f before = ok done ->
  f x = inl e ->
  for_each f (before ++ x :: after)%list = inl e.
Proof.
  revert done. induction before as [| a before IH]; simpl; intros done Hdone Hx.
  - rewrite Hx. reflexivity.
  - destruct (f a) as [e' | b]; simpl in *; [discriminate |].
    destruct (for_each f before) as [e' | bs]; simpl in *; [discriminate |].
    rewrite (IH bs eq_refl Hx). reflexivity.
Qed.

(** C7 (as the code has it). A line that is not metadata and splits
    into more than six tokens is refused by the parser with the format
    error that carries the line, before any audio work and before the
    destination is created.  A line of fewer than five tokens is stored
    by the parser as it is; when it is not a break or end line the
    pitching loop refuses it with a format error, after the audio work
    and before the destination is created. *)
Theorem malformed_lines_rejected {builtins : Builtins} (c : Q)
        (lines : list string) (audio : result modelOutput) :
  (Forall (fun l => l <> EmptyString) lines ->
   (exists line, In line lines /\ starts_with_hash line = false
                 /\ (6 < List.length (Py.split " " line))%nat) ->
   exists bad,
     In bad lines /\ starts_with_hash bad = false
     /\ (6 < List.length (Py.split " " bad))%nat
     /\ loadFile lines = inl (Exit_InvalidFormat bad)
     /\ main c lines audio = ([ReadChart], inl (Exit_InvalidFormat bad)))
  /\ (forall line,
         (List.length (Py.split " " line) < 5)%nat ->
         loadFile_split line = ok (Py.split " " line))
  /\ (forall metaData lyrics out b g before l0 rest after done,
         loadFile lines = ok (metaData, lyrics) ->
         audio = ok out ->
         pitch_tags metaData None None = ok (Some b, Some g) ->
         lyrics = (before ++ (l0 :: rest) :: after)%list ->
         for_each (pitch_line c g (ticksPerSecond b) (mo_pitch out)
                              (map (fun u => 1 - u) (mo_uncertainty out)))
                  before = ok done ->
         Py.startswith "-" l0 = false ->
         Py.startswith "E" l0 = false ->
         (List.length (l0 :: rest) < 5)%nat ->
         main c lines audio
         = ([ReadChart; LoadAudio; PrepareAudio; Analyze],
            inl (Exit_InvalidLine (l0 :: rest)))).
Proof.
  split; [| split].
  - intros Hall (line & Hin & Hmeta & Hlen).
    destruct (loadFile_lyrics_rejects lines line Hall Hin Hmeta Hlen)
      as (bad & Hbad & Hm & Hl & Hrej).
    exists bad.
    assert (Hload : loadFile lines = inl (Exit_InvalidFormat bad)).
    { unfold loadFile. rewrite (loadFile_metaData_total lines Hall). simpl.
      rewrite Hrej. reflexivity. }
    repeat split; auto.
    rewrite main_outcomes, Hload. reflexivity.
  - exact loadFile_split_short.
  - intros metaData lyrics out b g before l0 rest after done
           Hload Haudio Htags Hly Hdone Hbreak Hend Hlen.
    subst audio. rewrite main_outcomes, Hload. cbv beta iota delta [ok].
    rewrite (pitch_with_tags c metaData lyrics out b g Htags), Hly.
    rewrite (for_each_first_error _ before (l0 :: rest) after done _ Hdone
               (pitch_line_short c g (ticksPerSecond b) (mo_pitch out) _
                                 l0 rest Hbreak Hend Hlen)).
    reflexivity.
Qed.

Lemma malformed_lines_rejected_witness :
  let out := {| mo_pitch := repeat (1 # 2) 20; mo_uncertainty := repeat 0 20 |} in
  let long := ["#BPM:120" ++ LF; "#GAP:0" ++ LF; ": 0 4 0 a b c" ++ LF]%string in
  let short := ["#BPM:120" ++ LF; "#GAP:0" ++ LF; "- 2" ++ LF; ": 0 4" ++ LF]%string in
  (exists bad, main (85 # 100) long (ok out)
               = ([ReadChart], inl (Exit_InvalidFormat bad)))
  /\ main (85 # 100) short (ok out)
     = ([ReadChart; LoadAudio; PrepareAudio; Analyze],
        inl (Exit_InvalidLine [":"; "0"; "4" ++ LF]%string)).
Proof.
  intros out long short. split.
  - destruct (proj1 (@malformed_lines_rejected decimal_builtins (85 # 100)
                       long (ok out)))
      as (bad & _ & _ & _ & _ & Hmain).
    + repeat constructor; discriminate.
    + exists (": 0 4 0 a b c" ++ LF)%string.
      split; [right; right; left; reflexivity |].
      split; [reflexivity | vm_compute; lia].
    + exists bad. exact Hmain.
  - apply (proj2 (proj2 (@malformed_lines_rejected decimal_builtins (85 # 100)
                           short (ok out)))
                 ["#BPM:120" ++ LF; "#GAP:0" ++ LF]%string
                 [["-"; "2" ++ LF]; [":"; "0"; "4" ++ LF]]%string
                 out 120 0
                 [["-"; "2" ++ LF]]%string ":"%string ["0"; "4" ++ LF]%string []
                 [["-"; "2" ++ LF]]%string);
      try reflexivity.
    vm_compute. lia.
Defined.

(** C7, the claim as worded fails for a line of fewer than five
    fields: the parser stores it, and the run refuses it only after the
    audio work. *)
Lemma short_line_after_audio_counterexample :
  let out := {| mo_pitch := repeat (1 # 2) 20; mo_uncertainty := repeat 0 20 |} in
  let lines := ["#BPM:120" ++ LF; "#GAP:0" ++ LF; ": 0 4" ++ LF]%string in
  loadFile lines
  = ok (["#BPM:120" ++ LF; "#GAP:0" ++ LF], [[":"; "0"; "4" ++ LF]])%string
  /\ ~ (exists e, loadFile lines = inl e /\ is_FormatError e = true)
  /\ snd (main (85 # 100) lines (ok out))
     = inl (Exit_InvalidLine [":"; "0"; "4" ++ LF]%string)
  /\ ~ existsb is_audio_work (fst (main (85 # 100) lines (ok out))) = false.
Proof.
  intros out lines. split; [reflexivity |].
  split; [intros (e & He & _); discriminate |].
  split; [reflexivity | discriminate].
Qed.

(** ** The serializer *)

(** C9. In a run that completes, the destination holds first the
    metadata lines of the chart, each as it was read and in the order
    read, and after them the note lines. *)
Theorem metadata_written_first_verbatim {builtins : Builtins} (c : Q)
        (lines : list string) (audio : result modelOutput) (tr : list event) :
  main c lines audio = (tr, ok tt) ->
  exists lyrics out lyricsPitched notes,
    loadFile lines = ok (filter starts_with_hash lines, lyrics)
    /\ audio = ok out
    /\ pitch c (filter starts_with_hash lines) lyrics out = ok lyricsPitched
    /\ for_each writeFile_line lyricsPitched = ok notes
    /\ tr = [ReadChart; LoadAudio; PrepareAudio; Analyze; CreateDest;
             WriteLines (filter starts_with_hash lines); WriteLines notes]
    /\ dest_after tr None = Some (filter starts_with_hash lines ++ notes)%list.
Proof.
  rewrite main_outcomes. intros Hrun.
  destruct (loadFile lines) as [e | [metaData lyrics]] eqn:Hload; [discriminate |].
  destruct audio as [e | out]; [discriminate |].
  destruct (pitch c metaData lyrics out) as [e | lyricsPitched] eqn:Hpitch;
    [discriminate |].
  destruct (for_each writeFile_line lyricsPitched) as [e | notes] eqn:Hnotes;
    [discriminate |].
  injection Hrun as <-.
  pose proof (loadFile_metaData_verbatim _ _ _ Hload) as ->.
  exists lyrics, out, lyricsPitched, notes.
  repeat split; assumption || reflexivity.
Qed.

Lemma metadata_written_first_verbatim_witness :
  let out := {| mo_pitch := repeat (1 # 2) 20; mo_uncertainty := repeat 1 20 |} in
  let lines := ["#TITLE:x" ++ LF; "#BPM:120" ++ LF; ": 0 4 7 la" ++ LF;
                "#GAP:0" ++ LF; "- 5" ++ LF; "E" ++ LF]%string in
  exists notes,
    dest_after (fst (main (85 # 100) lines (ok out))) None
    = Some (["#TITLE:x" ++ LF; "#BPM:120" ++ LF; "#GAP:0" ++ LF]%string ++ notes)%list.
Proof.
  intros out lines.
  destruct (@metadata_written_first_verbatim decimal_builtins (85 # 100) lines
              (ok out)
              [ReadChart; LoadAudio; PrepareAudio; Analyze; CreateDest;
               WriteLines ["#TITLE:x" ++ LF; "#BPM:120" ++ LF; "#GAP:0" ++ LF]%string;
               WriteLines [": 0 4 0 la" ++ LF; "- 5" ++ LF; "E" ++ LF]%string]
              eq_refl)
    as (lyrics & out' & lyricsPitched & notes & _ & _ & _ & _ & _ & Hdest).
  exists notes. exact Hdest.
Defined.

Lemma startswith_E_not_break (l0 : string) :
  Py.startswith "E" l0 = true -> Py.startswith "-" l0 = false.
Proof.
  destruct l0 as [| ch l0]; [discriminate |].
  unfold Py.startswith. cbn [String.prefix].
  destruct (ascii_dec "E" ch) as [Heq | Hne]; [| discriminate].
  subst ch. reflexivity.
Qed.

(** C10 (as the code has it). A line whose first token starts with [-]
    and that has a second field is carried through the pitching and the
    serializing loop with its first two fields only, and one whose first
    token starts with [E] with its first field only, whatever other
    fields it has. *)
Theorem break_and_end_dispatch_on_prefix {builtins : Builtins} (c gap tps : Q)
        (pitch confidence : list Q) (l0 : string) :
  (forall l1 rest,
      Py.startswith "-" l0 = true ->
      pitch_line c gap tps pitch confidence (l0 :: l1 :: rest) = ok [l0; l1]
      /\ writeFile_line [l0; l1] = ok (l0 ++ " " ++ l1)%string)
  /\ (forall rest,
         Py.startswith "E" l0 = true ->
         pitch_line c gap tps pitch confidence (l0 :: rest) = ok [l0]
         /\ writeFile_line [l0] = ok l0).
Proof.
  split.
  - intros l1 rest Hbreak. unfold pitch_line, writeFile_line.
    cbn [Py.getitem nth_error bind ok]. rewrite Hbreak. split; reflexivity.
  - intros rest Hend. pose proof (startswith_E_not_break l0 Hend) as Hbreak.
    unfold pitch_line, writeFile_line.
    cbn [Py.getitem nth_error bind ok]. rewrite Hbreak, Hend. split; reflexivity.
Qed.

Lemma break_and_end_dispatch_on_prefix_witness :
  (pitch_line (85 # 100) 0 8 [] [] ["-x"; "1"; "2"; "3"; "la" ++ LF]%string
   = ok ["-x"; "1"]%string
   /\ writeFile_line ["-x"; "1"]%string = ok "-x 1"%string)
  /\ (pitch_line (85 # 100) 0 8 [] [] ["Eh"; "1"; "2"; "3"; "la" ++ LF]%string
      = ok ["Eh"]%string
      /\ writeFile_line ["Eh"]%string = ok "Eh"%string).
Proof.
  split.
  - apply (proj1 (@break_and_end_dispatch_on_prefix decimal_builtins
                    (85 # 100) 0 8 [] [] "-x"%string)).
    reflexivity.
  - apply (proj2 (@break_and_end_dispatch_on_prefix decimal_builtins
                    (85 # 100) 0 8 [] [] "Eh"%string)).
    reflexivity.
Defined.

(** A chart whose note lines have five fields and a type that starts
    with [-] or [E]: only the first fields reach the destination. *)
Example prefixed_note_lines_lose_fields :
  let out := {| mo_pitch := repeat (1 # 2) 20; mo_uncertainty := repeat 0 20 |} in
  main (85 # 100)
       ["#BPM:120" ++ LF; "#GAP:0" ++ LF; "-x 1 2 3 la" ++ LF; "Eh 5 2 3 la" ++ LF]%string
       (ok out)
  = ([ReadChart; LoadAudio; PrepareAudio; Analyze; CreateDest;
      WriteLines ["#BPM:120" ++ LF; "#GAP:0" ++ LF]%string;
      WriteLines ["-x 1"; "Eh"]%string], ok tt).
Proof. reflexivity. Qed.

(** * Further properties of the program *)

(** ** [loadFile]: what a stored line keeps *)

Lemma join_split (sep : ascii) (s : string) :
  Py.join sep (Py.split sep s) = s.
Proof.
  induction s as [| c s IH]; [reflexivity |].
  simpl Py.split. destruct (Ascii.eqb_spec c sep) as [-> | Hne].
  - pose proof (split_not_nil sep s) as Hnil.
    destruct (Py.split sep s) as [| tok toks]; [congruence |].
    change (String sep (Py.join sep (tok :: toks)) = String sep s).
    rewrite IH. reflexivity.
  - destruct (Py.split sep s) as [| tok toks] eqn:Hsplit.
    + exfalso. exact (split_not_nil _ _ Hsplit).
    + destruct toks as [| tok' toks]; simpl in *; rewrite IH; reflexivity.
Qed.

Lemma string_length_append (a b : string) :
  String.length (a ++ b) = (String.length a + String.length b)%nat.
Proof.
  induction a as [| c a IH]; simpl; [reflexivity | rewrite IH; reflexivity].
Qed.

(** The tokens [loadFile] stores for a line, joined by spaces, are the
    line again, except for a line of six tokens whose fifth token is not
    empty. *)
Theorem loadFile_split_lossless (line : string) (toks : list string) :
  loadFile_split line = ok toks ->
  (Py.join " " toks = line
   <-> (List.length (Py.split " " line) = 6%nat ->
        nth 4 (Py.split " " line) EmptyString = EmptyString)).
Proof.
  unfold loadFile_split. intros Hload.
  pose proof (join_split " " line) as Hjoin.
  destruct (Py.split " " line)
    as [| t1 [| t2 [| t3 [| t4 [| t5 [| t6 [| t7 rest]]]]]]];
    simpl in Hload; try discriminate;
      try (injection Hload as <-; split; [intros _ Hlen; discriminate
                                         | intros _; exact Hjoin]).
  injection Hload as <-. simpl nth. split.
  - intros Heq _. rewrite <- Hjoin in Heq.
    apply (f_equal String.length) in Heq. simpl in Heq.
    repeat (rewrite string_length_append in Heq; simpl in Heq).
    destruct t5; [reflexivity | simpl in Heq; lia].
  - intros Ht5. rewrite (Ht5 eq_refl) in Hjoin. exact Hjoin.
Qed.

Lemma loadFile_split_lossless_witness :
  Py.join " " [":"; "12"; "3"; "5"; " la" ++ LF]%string
  = (": 12 3 5  la" ++ LF)%string.
Proof.
  apply (proj2 (loadFile_split_lossless (": 12 3 5  la" ++ LF)%string
                  [":"; "12"; "3"; "5"; " la" ++ LF]%string eq_refl)).
  reflexivity.
Defined.

Lemma loadFile_split_length (line : string) (toks : list string) :
  loadFile_split line = ok toks ->
  (1 <= List.length toks <= 5)%nat.
Proof.
  unfold loadFile_split. intros Hload.
  pose proof (split_not_nil " " line) as Hnil.
  destruct (Py.split " " line)
    as [| t1 [| t2 [| t3 [| t4 [| t5 [| t6 [| t7 rest]]]]]]];
    simpl in Hload; try discriminate; try congruence;
      injection Hload as <-; simpl; lia.
Qed.

Lemma loadFile_lyrics_each (lines : list string) (lyrics : list (list string)) :
  loadFile_lyrics lines = ok lyrics ->
  Forall2 (fun line toks => loadFile_split line = ok toks)
          (filter is_lyric lines) lyrics.
Proof.
  revert lyrics. induction lines as [| line lines IH]; simpl; intros lyrics H.
  - injection H as <-. constructor.
  - destruct line as [| ch line]; simpl in H; [discriminate |].
    unfold is_lyric. simpl. destruct (Ascii.eqb ch "#"); simpl.
    + apply IH, H.
    + destruct (loadFile_split (String ch line)) as [e | toks] eqn:Hsplit;
        simpl in H; [discriminate |].
      destruct (loadFile_lyrics lines) as [e | ly]; simpl in H; [discriminate |].
      injection H as <-. constructor; [exact Hsplit | apply IH; reflexivity].
Qed.

Lemma filter_partition_length {A} (f : A -> bool) (l : list A) :
  (List.length (filter f l) + List.length (filter (fun x => negb (f x)) l)
   = List.length l)%nat.
Proof.
  induction l as [| x l IH]; simpl; [reflexivity |].
  destruct (f x); simpl; lia.
Qed.

(** A chart that loads is split in two: its [#] lines, as they are, and
    one stored line of one to five fields for every other line, in the
    order of the chart. *)
Theorem loadFile_partitions_chart (lines metaData : list string)
        (lyrics : list (list string)) :
  loadFile lines = ok (metaData, lyrics) ->
  metaData = filter starts_with_hash lines
  /\ Forall2 (fun line toks => loadFile_split line = ok toks)
             (filter is_lyric lines) lyrics
  /\ Forall (fun toks => (1 <= List.length toks <= 5)%nat) lyrics
  /\ (List.length metaData + List.length lyrics = List.length lines)%nat.
Proof.
  intros Hload.
  pose proof (loadFile_metaData_verbatim _ _ _ Hload) as Hmd.
  unfold loadFile in Hload.
  destruct (loadFile_metaData lines) as [e | md]; simpl in Hload; [discriminate |].
  destruct (loadFile_lyrics lines) as [e | ly] eqn:Hly; simpl in Hload;
    [discriminate |].
  injection Hload as _ <-.
  pose proof (loadFile_lyrics_each _ _ Hly) as Heach.
  split; [exact Hmd |]. split; [exact Heach |]. split.
  - clear Hly. induction Heach as [| line toks ls ts Hsplit _ IH]; constructor.
    + exact (loadFile_split_length _ _ Hsplit).
    + exact IH.
  - rewrite Hmd, <- (Forall2_length Heach).
    apply filter_partition_length.
Qed.

Lemma loadFile_partitions_chart_witness :
  Forall (fun toks => (1 <= List.length toks <= 5)%nat)
         [[":"; "0"; "4"; "0"; " la" ++ LF]; ["E" ++ LF]]%string.
Proof.
  apply (loadFile_partitions_chart
           ["#BPM:120" ++ LF; ": 0 4 0  la" ++ LF; "E" ++ LF]%string
           ["#BPM:120" ++ LF]%string
           [[":"; "0"; "4"; "0"; " la" ++ LF]; ["E" ++ LF]]%string eq_refl).
Defined.

(** ** [pitch]: the header loop and the errors *)

Lemma pitch_tags_app {builtins : Builtins} (before after : list string)
      (bpm gap : option Q) :
  pitch_tags (before ++ after)%list bpm gap =
  match pitch_tags before bpm gap with
  | inl e => inl e
  | inr (bpm', gap') => pitch_tags after bpm' gap'
  end.
Proof.
  revert bpm gap. induction before as [| line before IH]; intros bpm gap.
  - reflexivity.
  - cbn [pitch_tags app].
    destruct (String.eqb (Py.take 4 line) "#BPM");
      destruct (String.eqb (Py.take 4 line) "#GAP");
      destruct (py_float (Py.drop 5 line));
      cbn [bind value_of ok raise]; try reflexivity; apply IH.
Qed.

(** When several header lines carry the same tag, the last one gives
    the value. *)
Theorem last_tag_line_decides {builtins : Builtins}
        (before after : list string) (line : string) (v : Q)
        (bpm gap : option Q) :
  py_float (Py.drop 5 line) = Some v ->
  pitch_tags (before ++ line :: after)%list None None = ok (bpm, gap) ->
  (Py.take 4 line = "#BPM"%string -> has_tag "#BPM" after = false -> bpm = Some v)
  /\ (Py.take 4 line = "#GAP"%string -> has_tag "#GAP" after = false -> gap = Some v).
Proof.
  intros Hv Htags. rewrite pitch_tags_app in Htags.
  destruct (pitch_tags before None None) as [e | [b0 g0]]; [discriminate |].
  cbn [pitch_tags] in Htags. rewrite Hv in Htags.
  split; intros Htag Hno; rewrite Htag in Htags;
    cbn [String.eqb Ascii.eqb Bool.eqb bind value_of ok] in Htags;
    apply pitch_tags_missing in Htags as [Hb Hg]; auto.
Qed.

Lemma last_tag_line_decides_witness :
  pitch_tags ["#BPM:120" ++ LF; "#GAP:0" ++ LF; "#BPM:150" ++ LF;
              "#TITLE:x" ++ LF]%string None None
  = ok (Some (150 # 1), Some (0 # 1))
  /\ Some (150 # 1) = Some (150 # 1).
Proof.
  split; [reflexivity |].
  apply (proj1 (@last_tag_line_decides decimal_builtins
                  ["#BPM:120" ++ LF; "#GAP:0" ++ LF]%string
                  ["#TITLE:x" ++ LF]%string ("#BPM:150" ++ LF)%string
                  (150 # 1) (Some (150 # 1)) (Some (0 # 1))
                  eq_refl eq_refl));
    reflexivity.
Defined.

Lemma pitch_tags_error {builtins : Builtins} (metaData : list string)
      (bpm gap : option Q) (e : error) :
  pitch_tags metaData bpm gap = inl e -> e = ValueError.
Proof.
  revert bpm gap. induction metaData as [| line rest IH]; intros bpm gap;
    cbn [pitch_tags]; [discriminate |].
  destruct (String.eqb (Py.take 4 line) "#BPM");
    destruct (String.eqb (Py.take 4 line) "#GAP");
    destruct (py_float (Py.drop 5 line));
    cbn [bind value_of ok raise]; intros H;
      try (injection H as <-; reflexivity); eapply IH; eassumption.
Qed.

Lemma pitch_tags_none {builtins : Builtins} (metaData : list string)
      (bpm gap bpm' gap' : option Q) :
  pitch_tags metaData bpm gap = ok (bpm', gap') ->
  (bpm' = None -> has_tag "#BPM" metaData = false)
  /\ (gap' = None -> has_tag "#GAP" metaData = false).
Proof.
  unfold has_tag.
  revert bpm gap. induction metaData as [| line rest IH];
    cbn [pitch_tags existsb]; intros bpm gap H; [auto |].
  destruct (String.eqb (Py.take 4 line) "#BPM") eqn:Hb;
    destruct (String.eqb (Py.take 4 line) "#GAP") eqn:Hg;
    destruct (py_float (Py.drop 5 line)) as [v |];
    cbn [bind value_of ok raise] in H; try discriminate;
      pose proof (pitch_tags_missing _ _ _ _ _ H) as [M1 M2];
      unfold has_tag in M1, M2;
      apply IH in H as [H1 H2]; cbn [orb];
        split; intros Hnone; subst;
          try specialize (H1 eq_refl); try specialize (H2 eq_refl);
          try specialize (M1 H1); try specialize (M2 H2);
            try discriminate; assumption.
Qed.

Lemma mask_error {A} (a : list A) (m : list bool) (e : error) :
  Np.mask a m = inl e -> e = IndexError.
Proof.
  revert m. induction a as [| x a IH]; intros [| b m]; simpl; intros H;
    try discriminate; try (injection H as <-; reflexivity).
  destruct (Np.mask a m) as [e' | r] eqn:Hm; simpl in H; [| discriminate].
  injection H as <-. eapply IH. eassumption.
Qed.

Lemma pitch_line_error {builtins : Builtins} (c gap tps : Q)
      (pitch confidence : list Q) (line : list string) (e : error) :
  pitch_line c gap tps pitch confidence line = inl e ->
  e = IndexError \/ e = ValueError \/ e = ZeroDivisionError
  \/ e = Exit_InvalidLine line.
Proof.
  unfold pitch_line, pitch_note, confident_pitches, Py.getitem, value_of,
    ok, raise.
  intros H.
  repeat match type of H with
         | context [match ?x with _ => _ end] =>
             destruct x eqn:?; cbn [bind] in H
         | inl _ = inl _ => injection H as <-
         | inr _ = inl _ => discriminate
         end; auto.
  unfold bind in H.
  destruct (Np.mask _ _) as [e' | pitches] eqn:Hm; [| discriminate].
  injection H as <-. apply mask_error in Hm. auto.
Qed.

Lemma for_each_error {A B} (f : A -> result B) (l : list A) (e : error) :
  for_each f l = inl e -> exists x, In x l /\ f x = inl e.
Proof.
  induction l as [| a l IH]; simpl; [discriminate |].
  destruct (f a) as [e' | b] eqn:Ha; simpl.
  - intros H. injection H as <-. exists a. auto.
  - destruct (for_each f l) as [e' | bs]; simpl; [| discriminate].
    intros H. injection H as <-.
    destruct (IH eq_refl) as (x & Hin & Hx). exists x. auto.
Qed.

(** What an error of [pitch] tells.  [TypeError] means the header has
    no [#BPM] line, the missing-GAP exit that it has no [#GAP] line, an
    invalid-line exit names a line of the chart.  The missing-BPM exit,
    the audio exit and the parser's exit are never raised by [pitch]. *)
Theorem pitch_error_meaning {builtins : Builtins} (c : Q)
        (metaData : list string) (lyrics : list (list string))
        (out : modelOutput) (e : error) :
  pitch c metaData lyrics out = inl e ->
  (e = TypeError -> has_tag "#BPM" metaData = false)
  /\ (e = Exit_NoGapTag -> has_tag "#GAP" metaData = false)
  /\ (forall line, e = Exit_InvalidLine line -> In line lyrics)
  /\ e <> Exit_NoBpmTag /\ e <> Exit_Audio
  /\ (forall line, e <> Exit_InvalidFormat line).
Proof.
  unfold pitch. intros H.
  destruct (pitch_tags metaData None None) as [e' | [bpm gap]] eqn:Htags.
  { cbn [bind] in H. injection H as <-.
    apply pitch_tags_error in Htags. subst e'.
    repeat split; try discriminate; intros; discriminate. }
  destruct (pitch_tags_none _ _ _ _ _ Htags) as [Hb Hg].
  cbn [bind] in H. destruct bpm as [b |]; cbn [bind ok raise] in H.
  2:{ injection H as <-.
      repeat split; try discriminate; intros; try discriminate. auto. }
  destruct gap as [g |]; cbn [bind ok raise] in H.
  2:{ injection H as <-.
      repeat split; try discriminate; intros; try discriminate. auto. }
  apply for_each_error in H as (line & Hin & Hline).
  apply pitch_line_error in Hline as [-> | [-> | [-> | ->]]];
    repeat split; try discriminate; intros; try discriminate.
  congruence.
Qed.

Lemma pitch_error_meaning_witness :
  has_tag "#BPM" ["#GAP:0" ++ LF]%string = false.
Proof.
  apply (@pitch_error_meaning decimal_builtins (85 # 100)
           ["#GAP:0" ++ LF]%string [["E" ++ LF]]%string
           {| mo_pitch := []; mo_uncertainty := [] |} TypeError eq_refl).
  reflexivity.
Defined.




(** ** [writeFile] after [pitch] *)

(** Every line [pitch] produces is one [writeFile] accepts. *)
Lemma pitch_line_writable {builtins : Builtins} (c gap tps : Q)
      (pitch confidence : list Q) (line pitched : list string) :
  pitch_line c gap tps pitch confidence line = ok pitched ->
  exists text, writeFile_line pitched = ok text.
Proof.
  unfold pitch_line, pitch_note, confident_pitches, Py.getitem, value_of,
    ok, raise.
  intros H.
  repeat match type of H with
         | context [match ?x with _ => _ end] =>
             destruct x eqn:?; cbn [bind] in H
         | inr _ = inr _ => injection H as <-
         | inl _ = inr _ => discriminate
         end;
    try (unfold writeFile_line;
         cbn [Py.getitem nth_error bind ok List.length Nat.ltb Nat.leb];
         match goal with
         | Hb : Py.startswith "-" _ = _ |- _ => rewrite Hb
         end;
         try match goal with
             | He : Py.startswith "E" _ = _ |- _ => rewrite He
             end;
         eexists; reflexivity).
  unfold bind in H.
  destruct (Np.mask _ _) as [e' | pitches]; [discriminate |].
  injection H as <-.
  unfold writeFile_line.
  cbn [Py.getitem nth_error bind ok List.length Nat.ltb Nat.leb].
  match goal with
  | Hb : Py.startswith "-" _ = _, He : Py.startswith "E" _ = _ |- _ =>
      rewrite Hb, He
  end.
  eexists. reflexivity.
Qed.

Lemma for_each_compose {A B C} (f : A -> result B) (g : B -> result C)
      (l : list A) (ys : list B) :
  (forall x y, f x = ok y -> exists z, g y = ok z) ->
  for_each f l = ok ys ->
  exists zs, for_each g ys = ok zs.
Proof.
  intros Hfg. revert ys. induction l as [| a l IH]; simpl; intros ys H.
  - injection H as <-. exists []. reflexivity.
  - destruct (f a) as [e | b] eqn:Ha; simpl in H; [discriminate |].
    destruct (for_each f l) as [e | bs]; simpl in H; [discriminate |].
    injection H as <-.
    destruct (Hfg a b Ha) as [z Hz]. destruct (IH bs eq_refl) as [zs Hzs].
    exists (z :: zs). simpl. rewrite Hz. simpl. rewrite Hzs. reflexivity.
Qed.

Lemma pitch_writable {builtins : Builtins} (c : Q) (metaData : list string)
      (lyrics lyricsPitched : list (list string)) (out : modelOutput) :
  pitch c metaData lyrics out = ok lyricsPitched ->
  exists lyricsString, for_each writeFile_line lyricsPitched = ok lyricsString.
Proof.
  unfold pitch. intros H.
  destruct (pitch_tags metaData None None) as [e | [bpm gap]]; [discriminate |].
  cbn [bind] in H.
  destruct bpm as [b |]; cbn [bind ok raise] in H; [| discriminate].
  destruct gap as [g |]; cbn [bind ok raise] in H; [| discriminate].
  eapply for_each_compose; [| exact H].
  intros line pitched. apply pitch_line_writable.
Qed.

(** The format check of [writeFile] never fires on what [pitch]
    returns: a run that creates the destination also writes it and
    completes, and a run that ends in an error has not created it. *)
Theorem failed_run_creates_no_destination {builtins : Builtins} (c : Q)
        (lines : list string) (audio : result modelOutput) :
  (In CreateDest (fst (main c lines audio)) -> snd (main c lines audio) = ok tt)
  /\ (forall e, snd (main c lines audio) = inl e ->
                dest_after (fst (main c lines audio)) None = None
                /\ existsb is_output (fst (main c lines audio)) = false).
Proof.
  rewrite main_outcomes.
  destruct (loadFile lines) as [e | [metaData lyrics]].
  { split; [simpl; intuition discriminate | intros; split; reflexivity]. }
  destruct audio as [e | out].
  { split; [simpl; intuition discriminate | intros; split; reflexivity]. }
  destruct (pitch c metaData lyrics out) as [e | lyricsPitched] eqn:Hpitch.
  { split; [simpl; intuition discriminate | intros; split; reflexivity]. }
  destruct (pitch_writable c metaData lyrics lyricsPitched out Hpitch)
    as [lyricsString ->].
  split; [reflexivity | intros e He; discriminate].
Qed.

Lemma failed_run_creates_no_destination_witness :
  dest_after (fst (main (85 # 100) ["#GAP:0" ++ LF; ": 0 4" ++ LF]%string
                        (ok {| mo_pitch := []; mo_uncertainty := [] |})))
             None = None.
Proof.
  apply (proj2 (@failed_run_creates_no_destination decimal_builtins (85 # 100)
                  ["#GAP:0" ++ LF; ": 0 4" ++ LF]%string
                  (ok {| mo_pitch := []; mo_uncertainty := [] |}))
               TypeError eq_refl).
Defined.

(** ** From a chart line to the line written *)

Lemma for_each_Forall2 {A B} (f : A -> result B) (l : list A) (ys : list B) :
  for_each f l = ok ys -> Forall2 (fun x y => f x = ok y) l ys.
Proof.
  revert ys. induction l as [| a l IH]; simpl; intros ys H.
  - injection H as <-. constructor.
  - destruct (f a) as [e | b] eqn:Ha; simpl in H; [discriminate |].
    destruct (for_each f l) as [e | bs]; simpl in H; [discriminate |].
    injection H as <-. constructor; [exact Ha | apply IH; reflexivity].
Qed.

Lemma Forall2_chain {A B C} (R : A -> B -> Prop) (S : B -> C -> Prop)
      (l1 : list A) (l2 : list B) (l3 : list C) :
  Forall2 R l1 l2 -> Forall2 S l2 l3 ->
  Forall2 (fun a c => exists b, R a b /\ S b c) l1 l3.
Proof.
  intros H12. revert l3. induction H12 as [| a b l1 l2 Hab _ IH]; intros l3 H23.
  - inversion H23. constructor.
  - inversion H23 as [| ? c ? l3' Hbc H23']; subst.
    constructor; [exists b; auto | apply IH, H23'].
Qed.

(** In a run that completes, the destination holds, after the
    metadata, one line for every other line of the chart, in the order
    of the chart: the line as [loadFile] stored it, [pitch] rewrote it
    and [writeFile] joined it. *)
Theorem one_note_line_per_chart_line {builtins : Builtins} (c : Q)
        (lines : list string) (audio : result modelOutput) (tr : list event) :
  main c lines audio = (tr, ok tt) ->
  exists out b g notes,
    audio = ok out
    /\ dest_after tr None = Some (filter starts_with_hash lines ++ notes)%list
    /\ List.length notes = List.length (filter is_lyric lines)
    /\ Forall2
         (fun line note =>
            exists pitched,
              (exists toks,
                  loadFile_split line = ok toks
                  /\ pitch_line c g (ticksPerSecond b) (mo_pitch out)
                                (map (fun u => 1 - u) (mo_uncertainty out)) toks
                     = ok pitched)
              /\ writeFile_line pitched = ok note)
         (filter is_lyric lines) notes.
Proof.
  rewrite main_outcomes. intros Hrun.
  destruct (loadFile lines) as [e | [metaData lyrics]] eqn:Hload; [discriminate |].
  destruct audio as [e | out]; [discriminate |].
  destruct (pitch c metaData lyrics out) as [e | lyricsPitched] eqn:Hpitch;
    [discriminate |].
  destruct (for_each writeFile_line lyricsPitched) as [e | notes] eqn:Hnotes;
    [discriminate |].
  injection Hrun as <-.
  pose proof (loadFile_metaData_verbatim _ _ _ Hload) as ->.
  unfold loadFile in Hload.
  destruct (loadFile_metaData lines) as [e | md]; simpl in Hload; [discriminate |].
  destruct (loadFile_lyrics lines) as [e | ly] eqn:Hly; simpl in Hload;
    [discriminate |].
  injection Hload as _ ->.
  unfold pitch in Hpitch.
  destruct (pitch_tags _ None None) as [e | [bpm gap]]; [discriminate |].
  cbn [bind] in Hpitch.
  destruct bpm as [b |]; cbn [bind ok raise] in Hpitch; [| discriminate].
  destruct gap as [g |]; cbn [bind ok raise] in Hpitch; [| discriminate].
  pose proof (Forall2_chain _ _ _ _ _
                (Forall2_chain _ _ _ _ _ (loadFile_lyrics_each _ _ Hly)
                               (for_each_Forall2 _ _ _ Hpitch))
                (for_each_Forall2 _ _ _ Hnotes)) as Hall.
  exists out, b, g, notes.
  split; [reflexivity |]. split; [reflexivity |].
  split; [symmetry; exact (Forall2_length Hall) | exact Hall].
Qed.

Lemma one_note_line_per_chart_line_witness :
  let out := {| mo_pitch := repeat (1 # 2) 20; mo_uncertainty := repeat 1 20 |} in
  let lines := ["#BPM:120" ++ LF; "#GAP:0" ++ LF; ": 0 4 7 la" ++ LF;
                "- 5" ++ LF; "E" ++ LF]%string in
  exists notes,
    dest_after (fst (main (85 # 100) lines (ok out))) None
    = Some (["#BPM:120" ++ LF; "#GAP:0" ++ LF]%string ++ notes)%list
    /\ List.length notes = 3%nat.
Proof.
  intros out lines.
  destruct (@one_note_line_per_chart_line decimal_builtins (85 # 100) lines
              (ok out)
              [ReadChart; LoadAudio; PrepareAudio; Analyze; CreateDest;
               WriteLines ["#BPM:120" ++ LF; "#GAP:0" ++ LF]%string;
               WriteLines [": 0 4 0 la" ++ LF; "- 5" ++ LF; "E" ++ LF]%string]
              eq_refl)
    as (out' & b & g & notes & _ & Hdest & Hlen & _).
  exists notes. split; [exact Hdest | exact Hlen].
Defined.




(** What [pitch] returns for a sung note whose ticks read. *)
Lemma pitch_line_sung_note {builtins : Builtins} (c gap tps : Q)
      (pitch uncertainty : list Q) (l0 l1 l2 l3 l4 : string)
      (rest : list string) (t d : Z) :
  Py.startswith "-" l0 = false ->
  Py.startswith "E" l0 = false ->
  py_int l1 = Some t ->
  py_int l2 = Some d ->
  Qeq_bool tps 0 = false ->
  List.length pitch = List.length uncertainty ->
  exists note,
    pitch_line c gap tps pitch (map (fun u => 1 - u) uncertainty)
               (l0 :: l1 :: l2 :: l3 :: l4 :: rest)
    = ok [l0; l1; l2; Py.str note; l4].
Proof.
  intros Hbreak Hend Ht Hd Htps Hlen.
  unfold pitch_line. cbn [Py.getitem nth_error bind ok]. rewrite Hbreak, Hend.
  unfold pitch_note.
  cbn [List.length Nat.ltb Nat.leb Py.getitem nth_error bind ok].
  rewrite Ht. cbn [value_of bind ok]. rewrite Htps, Hd. cbn [value_of bind ok].
  rewrite confident_pitches_as_filter by exact Hlen.
  eexists. reflexivity.
Qed.



(** A break line of two fields and an end line of one field are
    written exactly as they were read. *)
Theorem break_and_end_lines_written_verbatim {builtins : Builtins}
        (c gap tps : Q) (pitch confidence : list Q) :
  (forall l0 l1 : string,
      no_space l0 -> no_space l1 -> Py.startswith "-" l0 = true ->
      let line := (l0 ++ " " ++ l1)%string in
      loadFile_split line = ok [l0; l1]
      /\ pitch_line c gap tps pitch confidence [l0; l1] = ok [l0; l1]
      /\ writeFile_line [l0; l1] = ok line)
  /\ (forall l0 : string,
         no_space l0 -> Py.startswith "E" l0 = true ->
         loadFile_split l0 = ok [l0]
         /\ pitch_line c gap tps pitch confidence [l0] = ok [l0]
         /\ writeFile_line [l0] = ok l0).
Proof.
  split.
  - intros l0 l1 H0 H1 Hbreak line. split; [| split].
    + unfold loadFile_split, line.
      change (l0 ++ " " ++ l1)%string with (Py.join " " [l0; l1]).
      rewrite split_join; [reflexivity | discriminate |].
      repeat constructor; assumption.
    + unfold pitch_line. cbn [Py.getitem nth_error bind ok].
      rewrite Hbreak. reflexivity.
    + unfold writeFile_line. cbn [Py.getitem nth_error bind ok].
      rewrite Hbreak. reflexivity.
  - intros l0 H0 Hend.
    pose proof (startswith_E_not_break l0 Hend) as Hbreak.
    split; [| split].
    + unfold loadFile_split. rewrite H0. reflexivity.
    + unfold pitch_line. cbn [Py.getitem nth_error bind ok].
      rewrite Hbreak, Hend. reflexivity.
    + unfold writeFile_line. cbn [Py.getitem nth_error bind ok].
      rewrite Hbreak, Hend. reflexivity.
Qed.

Lemma break_and_end_lines_written_verbatim_witness :
  (writeFile_line ["-"; "12" ++ LF]%string = ok ("- 12" ++ LF)%string)
  /\ writeFile_line ["E" ++ LF]%string = ok ("E" ++ LF)%string.
Proof.
  split.
  - apply (proj1 (@break_and_end_lines_written_verbatim decimal_builtins
                    (85 # 100) 0 8 [] [])
                 "-"%string ("12" ++ LF)%string); reflexivity.
  - apply (proj2 (@break_and_end_lines_written_verbatim decimal_builtins
                    (85 # 100) 0 8 [] [])
                 ("E" ++ LF)%string); reflexivity.
Defined.

(** ** The frame range of a note *)

Lemma Qceiling_nonpos (x : Q) : x <= 0 -> (Qceiling x <= 0)%Z.
Proof.
  intros Hx. change 0%Z with (Qceiling 0). apply Qceiling_resp_le, Hx.
Qed.

Lemma Qfloor_nonneg (x : Q) : 0 <= x -> (0 <= Qfloor x)%Z.
Proof.
  intros Hx. change 0%Z with (Qfloor 0). apply Qfloor_resp_le, Hx.
Qed.

(** [int()] never reverses an order. *)
Lemma int_of_float_monotone (x y : Q) :
  x <= y -> (Py.int_of_float x <= Py.int_of_float y)%Z.
Proof.
  intros Hxy.
  destruct (Qlt_le_dec x 0) as [Hx | Hx]; destruct (Qlt_le_dec y 0) as [Hy | Hy].
  - rewrite !int_of_float_nonpos by (apply Qlt_le_weak; assumption).
    apply Qceiling_resp_le, Hxy.
  - rewrite (int_of_float_nonpos x) by (apply Qlt_le_weak; assumption).
    rewrite (int_of_float_nonneg y) by assumption.
    pose proof (Qceiling_nonpos x (Qlt_le_weak _ _ Hx)).
    pose proof (Qfloor_nonneg y Hy). lia.
  - exfalso. lra.
  - rewrite !int_of_float_nonneg by assumption.
    apply Qfloor_resp_le, Hxy.
Qed.

Lemma frame_time_le (gap tps : Q) (start duration : Z) :
  0 < tps -> (0 <= duration)%Z ->
  (gap / 1000 + inject_Z start / tps - (1 # 2) / tps) * 1000 / 32
  <= (gap / 1000 + inject_Z (start + duration) / tps + (1 # 2) / tps) * 1000 / 32.
Proof.
  intros Htps Hd.
  assert (Hinv : 0 < / tps) by (apply Qinv_lt_0_compat, Htps).
  assert (Hdq : 0 <= inject_Z duration)
    by (change 0 with (inject_Z 0); rewrite <- Zle_Qle; exact Hd).
  assert (Hprod : 0 <= inject_Z duration * / tps)
    by (apply Qmult_le_0_compat; [exact Hdq | apply Qlt_le_weak, Hinv]).
  rewrite inject_Z_plus. unfold Qdiv.
  set (u := / tps) in *. set (a := inject_Z start). set (b := inject_Z duration) in *.
  assert (E1 : (gap * / 1000 + a * u - (1 # 2) * u) * 1000 * / 32
               == gap * (1 # 32) + a * u * (125 # 4) - u * (125 # 8)) by field.
  assert (E2 : (gap * / 1000 + (a + b) * u + (1 # 2) * u) * 1000 * / 32
               == gap * (1 # 32) + a * u * (125 # 4) + b * u * (125 # 4)
                  + u * (125 # 8)) by field.
  rewrite E1, E2. lra.
Qed.

(** With a positive tick rate and a duration that is not negative the
    start frame is at most the end frame. *)
Theorem start_frame_at_most_end_frame (gap tps : Q) (start duration : Z) :
  0 < tps -> (0 <= duration)%Z ->
  (startFrame gap tps start <= endFrame gap tps start duration)%Z.
Proof.
  intros Htps Hd. unfold startFrame, endFrame.
  apply int_of_float_monotone, frame_time_le; assumption.
Qed.

Lemma start_frame_at_most_end_frame_witness :
  (startFrame 0 (ticksPerSecond 120) 0 <= endFrame 0 (ticksPerSecond 120) 0 4)%Z.
Proof.
  apply start_frame_at_most_end_frame; [reflexivity | discriminate].
Defined.

Lemma start_time_nonneg (gap tps : Q) (start : Z) :
  0 <= gap -> 0 < tps -> (1 <= start)%Z ->
  0 <= (gap / 1000 + inject_Z start / tps - (1 # 2) / tps) * 1000 / 32.
Proof.
  intros Hgap Htps Hs.
  assert (Hinv : 0 < / tps) by (apply Qinv_lt_0_compat, Htps).
  assert (Hsq : 1 <= inject_Z start)
    by (change 1 with (inject_Z 1); rewrite <- Zle_Qle; exact Hs).
  assert (Hprod : 0 <= (inject_Z start - 1) * / tps)
    by (apply Qmult_le_0_compat; [lra | apply Qlt_le_weak, Hinv]).
  unfold Qdiv. set (u := / tps) in *. set (a := inject_Z start) in *.
  assert (E1 : (gap * / 1000 + a * u - (1 # 2) * u) * 1000 * / 32
               == gap * (1 # 32) + (a - 1) * u * (125 # 4) + u * (125 # 8))
    by field.
  rewrite E1. lra.
Qed.

(** For a GAP that is not negative, a positive tick rate and a note
    that starts at tick 1 or later, both frame numbers are not negative,
    and the frames the slice selects are those of the range clamped to
    the series. *)
Theorem later_notes_use_clamped_range (gap tps : Q) (start duration : Z)
        (series : list Q) :
  0 <= gap -> 0 < tps -> (1 <= start)%Z -> (0 <= duration)%Z ->
  (0 <= startFrame gap tps start <= endFrame gap tps start duration)%Z
  /\ Py.slice series (startFrame gap tps start) (endFrame gap tps start duration)
     = Spec.clamped_slice series (startFrame gap tps start)
                          (endFrame gap tps start duration).
Proof.
  intros Hgap Htps Hs Hd.
  assert (H0 : (0 <= startFrame gap tps start)%Z).
  { unfold startFrame. rewrite int_of_float_nonneg.
    - apply Qfloor_nonneg, start_time_nonneg; assumption.
    - apply start_time_nonneg; assumption. }
  assert (Hle : (startFrame gap tps start <= endFrame gap tps start duration)%Z).
  { unfold startFrame, endFrame.
    apply int_of_float_monotone, frame_time_le; assumption. }
  split; [lia |].
  apply slice_nonneg_clamped; lia.
Qed.

Lemma later_notes_use_clamped_range_witness :
  (0 <= startFrame 0 8 1 <= endFrame 0 8 1 4)%Z
  /\ Py.slice [1 # 10; 2 # 10; 3 # 10] (startFrame 0 8 1) (endFrame 0 8 1 4)
     = Spec.clamped_slice [1 # 10; 2 # 10; 3 # 10]
                          (startFrame 0 8 1) (endFrame 0 8 1 4).
Proof.
  apply later_notes_use_clamped_range;
    solve [discriminate | reflexivity].
Defined.

(** ** The median and the threshold *)

Lemma insert_sorted_Forall (P : Q -> Prop) (x : Q) (l : list Q) :
  P x -> Forall P l -> Forall P (Np.insert_sorted x l).
Proof.
  intros Hx. induction 1 as [| y l Hy Hl IH]; simpl.
  - repeat constructor. exact Hx.
  - destruct (Qle_bool x y); repeat constructor; assumption.
Qed.

Lemma insert_sorted_length (x : Q) (l : list Q) :
  List.length (Np.insert_sorted x l) = S (List.length l).
Proof.
  induction l as [| y l IH]; simpl; [reflexivity |].
  destruct (Qle_bool x y); simpl; [reflexivity | rewrite IH; reflexivity].
Qed.

Lemma sort_Forall (P : Q -> Prop) (l : list Q) :
  Forall P l -> Forall P (Np.sort l).
Proof.
  induction 1 as [| x l Hx _ IH]; simpl; [constructor |].
  apply insert_sorted_Forall; assumption.
Qed.

Lemma sort_length (l : list Q) : List.length (Np.sort l) = List.length l.
Proof.
  induction l as [| x l IH]; simpl; [reflexivity |].
  unfold Np.sort in *. rewrite insert_sorted_length, IH. reflexivity.
Qed.

Lemma Forall_nth_in (P : Q -> Prop) (l : list Q) (i : nat) :
  Forall P l -> (i < List.length l)%nat -> P (nth i l 0).
Proof.
  intros Hall. revert i. induction Hall as [| x l Hx _ IH]; intros [| i] Hi;
    simpl in *; try lia; [exact Hx | apply IH; lia].
Qed.

Lemma median_between (lo hi : Q) (l : list Q) :
  l <> [] ->
  Forall (fun x => lo <= x <= hi) l ->
  lo <= Np.median l <= hi.
Proof.
  intros Hne Hall. unfold Np.median.
  pose proof (sort_Forall _ l Hall) as Hs.
  pose proof (sort_length l) as Hlen.
  assert (Hpos : (0 < List.length (Np.sort l))%nat).
  { rewrite Hlen. destruct l; [congruence | simpl; lia]. }
  set (s := Np.sort l) in *. set (n := List.length s) in *.
  assert (Hmid : (n / 2 < n)%nat) by (apply Nat.div_lt; lia).
  pose proof (Forall_nth_in _ s (n / 2) Hs Hmid) as Hm. cbv beta in Hm.
  destruct (Nat.even n); [| exact Hm].
  assert (Hmid' : (n / 2 - 1 < n)%nat) by lia.
  pose proof (Forall_nth_in _ s (n / 2 - 1) Hs Hmid') as Hm'. cbv beta in Hm'.
  set (a := nth (n / 2 - 1) s 0) in *. set (b := nth (n / 2) s 0) in *.
  assert (E : (a + b) / 2 == (a + b) * (1 # 2)) by field.
  rewrite E. lra.
Qed.

(** The median of values that lie between two bounds lies between
    them; the median of one value is that value, and of two values their
    mean, in either order. *)
Theorem median_within_bounds :
  (forall (lo hi : Q) (l : list Q),
      l <> [] -> Forall (fun x => lo <= x <= hi) l -> lo <= Np.median l <= hi)
  /\ (forall x : Q, Np.median [x] = x)
  /\ (forall x y : Q, Np.median [x; y] == (x + y) / 2).
Proof.
  split; [exact median_between |]. split; [reflexivity |].
  intros x y. unfold Np.median, Np.sort. simpl.
  destruct (Qle_bool x y); simpl; field.
Qed.

Lemma median_within_bounds_witness :
  0 <= Np.median [3 # 10; 1 # 10; 9 # 10; 1 # 2] <= 1.
Proof.
  apply (proj1 median_within_bounds); [discriminate |].
  repeat constructor; discriminate.
Defined.

(** ** [hz2note] and the MIDI scale *)

Section Semitones.

Local Open Scope R_scope.

Lemma ln_2_pos : 0 < ln 2.
Proof. pose proof ln_lt_2. lra. Qed.

Lemma ln_Rpower (x y : R) : ln (Rpower x y) = y * ln x.
Proof. unfold Rpower. apply ln_exp. Qed.

Lemma Rpower_pos (x y : R) : 0 < Rpower x y.
Proof. unfold Rpower. apply exp_pos. Qed.

Lemma ln_32 : ln 32 = 5 * ln 2.
Proof.
  replace 32 with (2 ^ 5) by lra. rewrite ln_pow by lra. simpl INR. lra.
Qed.

(** The number [hz2note] rounds: 69 + 12*log2(hz/440), the MIDI number
    of the frequency. *)
Lemma hz2note_argument (hz : R) :
  0 < hz ->
  12 * ln (4 * hz / 55 * Rpower 2 (3 / 4)) / ln 2
  = 12 * ln (hz / 440) / ln 2 + 69.
Proof.
  intros Hhz. pose proof ln_2_pos as Hln2.
  replace (4 * hz / 55 * Rpower 2 (3 / 4))
    with (32 * ((hz / 440) * Rpower 2 (3 / 4))) by field.
  assert (Hq : 0 < hz / 440) by (apply Rdiv_lt_0_compat; lra).
  rewrite ln_mult; [| lra | apply Rmult_lt_0_compat; [exact Hq | apply Rpower_pos]].
  rewrite ln_mult; [| exact Hq | apply Rpower_pos].
  rewrite ln_Rpower, ln_32. field. lra.
Qed.

Lemma round_IZR (n : Z) : Np.round (IZR n) = n.
Proof.
  unfold Np.round.
  assert (Hf : Int_part (IZR n) = n) by (symmetry; apply Int_part_spec; lra).
  rewrite Hf. destruct (Rlt_dec (IZR n - IZR n) (1 / 2)); [reflexivity | lra].
Qed.

(** The rounded value is within one half of the number rounded. *)
Lemma round_nearest (x : R) :
  IZR (Np.round x) - 1 / 2 <= x <= IZR (Np.round x) + 1 / 2.
Proof.
  unfold Np.round. destruct (base_Int_part x) as [Hlo Hhi].
  destruct (Rlt_dec (x - IZR (Int_part x)) (1 / 2)); [lra |].
  destruct (Rlt_dec (1 / 2) (x - IZR (Int_part x)));
    [rewrite plus_IZR; lra |].
  destruct (Z.even (Int_part x)); [| rewrite plus_IZR]; lra.
Qed.

Lemma round_unique (x : R) (n : Z) :
  IZR n - 1 / 2 < x < IZR n + 1 / 2 -> Np.round x = n.
Proof.
  intros Hx. pose proof (round_nearest x) as Hr.
  assert (H1 : (Np.round x < n + 1)%Z) by (apply lt_IZR; rewrite plus_IZR; lra).
  assert (H2 : (n - 1 < Np.round x)%Z) by (apply lt_IZR; rewrite minus_IZR; lra).
  lia.
Qed.

Lemma hz2note_of_midi_hz (x : R) : hz2note (midi_hz x) = (Np.round x - 60)%Z.
Proof.
  pose proof ln_2_pos as Hln2.
  assert (Hpos : 0 < midi_hz x).
  { unfold midi_hz. apply Rmult_lt_0_compat; [lra | apply Rpower_pos]. }
  unfold hz2note. rewrite (hz2note_argument _ Hpos). f_equal. f_equal.
  unfold midi_hz.
  replace (440 * Rpower 2 ((x - 69) / 12) / 440) with (Rpower 2 ((x - 69) / 12))
    by (field; lra).
  rewrite ln_Rpower. field. lra.
Qed.

End Semitones.

(** [hz2note] inverts the formula of its comment: the frequency of MIDI
    number n gives n - 60, so 440 Hz gives 9 and middle C gives 0; a
    frequency of a real-valued MIDI number x gives the rounding of x,
    less 60. *)
Theorem hz2note_inverts_midi_formula :
  (forall x : R, hz2note (midi_hz x) = (Np.round x - 60)%Z)
  /\ (forall n : Z, hz2note (midi_hz (IZR n)) = (n - 60)%Z)
  /\ hz2note 440 = 9%Z
  /\ hz2note (midi_hz 60) = 0%Z.
Proof.
  split; [exact hz2note_of_midi_hz |].
  assert (Hint : forall n : Z, hz2note (midi_hz (IZR n)) = (n - 60)%Z).
  { intros n. rewrite hz2note_of_midi_hz, round_IZR. reflexivity. }
  split; [exact Hint |]. split.
  - replace 440%R with (midi_hz (IZR 69)); [apply (Hint 69%Z) |].
    unfold midi_hz.
    replace ((69 - 69) / 12)%R with 0%R by lra.
    rewrite Rpower_O by lra. lra.
  - apply (Hint 60%Z).
Qed.

(** The note number of a frequency is within half a semitone of its
    exact place on the scale, 12*log2(hz/440) + 9. *)
Theorem hz2note_is_nearest_semitone (hz : R) :
  (0 < hz)%R ->
  (IZR (hz2note hz) - 1 / 2 <= 12 * ln (hz / 440) / ln 2 + 9
   <= IZR (hz2note hz) + 1 / 2)%R.
Proof.
  intros Hhz. unfold hz2note. rewrite (hz2note_argument _ Hhz).
  pose proof (round_nearest (12 * ln (hz / 440) / ln 2 + 69)) as Hr.
  rewrite minus_IZR. lra.
Qed.

Lemma hz2note_is_nearest_semitone_witness :
  (IZR (hz2note 100) - 1 / 2 <= 12 * ln (100 / 440) / ln 2 + 9
   <= IZR (hz2note 100) + 1 / 2)%R.
Proof.
  apply hz2note_is_nearest_semitone. lra.
Defined.

(** ** The range of the note numbers *)

Section NoteRange.

Local Open Scope R_scope.

Lemma ln_44_bounds : 131 * ln 2 < 24 * ln 44 /\ 12 * ln 44 < 66 * ln 2.
Proof.
  split.
  - assert (H : ln (2 ^ 131) < ln (44 ^ 24)) by (apply ln_increasing; lra).
    rewrite !ln_pow, !INR_IZR_INZ in H by lra. simpl Z.of_nat in H. exact H.
  - assert (H : ln (44 ^ 12) < ln (2 ^ 66)) by (apply ln_increasing; lra).
    rewrite !ln_pow, !INR_IZR_INZ in H by lra. simpl Z.of_nat in H. exact H.
Qed.

Lemma log2_44_bounds : 65.5 < 12 * ln 44 / ln 2 < 66.
Proof.
  pose proof ln_2_pos as Hln2. destruct ln_44_bounds as [Hlo Hhi].
  assert (Hq : 12 * ln 44 / ln 2 * ln 2 = 12 * ln 44) by (field; lra).
  split; apply Rmult_lt_reg_r with (ln 2); try exact Hln2; rewrite Hq; lra.
Qed.

(** The number rounded for a model pitch [p]: a line in [p]. *)
Lemma pitch2hz_argument (p : R) :
  12 * ln (pitch2hz p / 440) / ln 2 + 69
  = p * PT_SLOPE + PT_OFFSET + 69 - 12 * ln 44 / ln 2.
Proof.
  pose proof ln_2_pos as Hln2.
  unfold pitch2hz, FMIN, BINS_PER_OCTAVE.
  set (cqt := p * PT_SLOPE + PT_OFFSET).
  replace (10 * Rpower 2 (1 * cqt / 12) / 440)
    with (/ 44 * Rpower 2 (1 * cqt / 12)) by field.
  rewrite ln_mult; [| lra | apply Rpower_pos].
  rewrite ln_Rinv by lra. rewrite ln_Rpower. field. lra.
Qed.

Lemma note_of_pitch_closed_form (p : R) :
  hz2note (pitch2hz p)
  = (Np.round (p * PT_SLOPE + PT_OFFSET + 69 - 12 * ln 44 / ln 2) - 60)%Z.
Proof.
  unfold hz2note. rewrite (hz2note_argument _ (pitch2hz_positive p)).
  rewrite pitch2hz_argument. reflexivity.
Qed.

Lemma note_of_pitch_0 : hz2note (pitch2hz 0) = (-31)%Z.
Proof.
  rewrite note_of_pitch_closed_form.
  rewrite (round_unique _ 29); [reflexivity |].
  pose proof log2_44_bounds. unfold PT_SLOPE, PT_OFFSET. lra.
Qed.

Lemma note_of_pitch_1 : hz2note (pitch2hz 1) = 32%Z.
Proof.
  rewrite note_of_pitch_closed_form.
  rewrite (round_unique _ 92); [reflexivity |].
  pose proof log2_44_bounds. unfold PT_SLOPE, PT_OFFSET. lra.
Qed.

Lemma note_of_pitch_range (p : R) :
  0 <= p <= 1 -> (-31 <= hz2note (pitch2hz p) <= 32)%Z.
Proof.
  intros [Hlo Hhi].
  rewrite <- note_of_pitch_0, <- note_of_pitch_1.
  split; apply hz2note_monotone; try apply pitch2hz_positive.
  - destruct Hlo as [Hlt | <-]; [left; apply pitch2hz_increasing, Hlt | right; reflexivity].
  - destruct Hhi as [Hlt | ->]; [left; apply pitch2hz_increasing, Hlt | right; reflexivity].
Qed.

End NoteRange.

(** The note of a model pitch is a line in the pitch, rounded:
    63.07*p + 25.58 + 69 - 12*log2(44), rounded, less 60. *)
Theorem note_is_rounded_line_in_pitch (p : R) :
  hz2note (pitch2hz p)
  = (Np.round (p * 63.07 + 25.58 + 69 - 12 * ln 44 / ln 2) - 60)%Z.
Proof.
  exact (note_of_pitch_closed_form p).
Qed.

(** Model pitches between 0 and 1 give note numbers between -31 and 32,
    the two ends being reached; so does every note [pitch] computes from
    pitches in that range, the 0 of a note without confident frames
    included. *)
Theorem note_numbers_between_minus_31_and_32 :
  hz2note (pitch2hz 0) = (-31)%Z
  /\ hz2note (pitch2hz 1) = 32%Z
  /\ (forall p : R, (0 <= p <= 1)%R -> (-31 <= hz2note (pitch2hz p) <= 32)%Z)
  /\ (forall pitches : list Q,
         Forall (fun p => 0 <= p <= 1) pitches ->
         (-31 <= note_of pitches <= 32)%Z).
Proof.
  split; [exact note_of_pitch_0 |]. split; [exact note_of_pitch_1 |].
  split; [exact note_of_pitch_range |].
  intros pitches Hall. destruct pitches as [| p rest]; [simpl; lia |].
  unfold note_of. apply note_of_pitch_range.
  destruct (median_between 0 1 (p :: rest)) as [Hlo Hhi];
    [discriminate | exact Hall |].
  apply Qle_Rle in Hlo. apply Qle_Rle in Hhi.
  replace (Q2R 0) with 0%R in Hlo by (unfold Q2R; simpl; lra).
  replace (Q2R 1) with 1%R in Hhi by (unfold Q2R; simpl; lra).
  split; assumption.
Qed.

Lemma note_numbers_between_minus_31_and_32_witness :
  (-31 <= note_of [3 # 10; 1 # 10; 9 # 10] <= 32)%Z.
Proof.
  apply (proj2 (proj2 (proj2 note_numbers_between_minus_31_and_32))).
  repeat constructor; discriminate.
Defined.

(** ** [prepareAudio] *)

Lemma padded_length_bounds (n : nat) :
  (Z.of_nat n <= padded_length n < Z.of_nat n + 512)%Z
  /\ exists k : Z, padded_length n = (k * 512)%Z.
Proof.
  unfold padded_length.
  set (x := inject_Z (Z.of_nat n) / 512).
  pose proof (Qle_ceiling x) as Hle. pose proof (Qceiling_lt x) as Hlt.
  split; [| exists (Qceiling x); reflexivity].
  revert Hle Hlt. generalize (Qceiling x). intros k.
  unfold x, Qle, Qlt. simpl. lia.
Qed.

Lemma skipn_repeat {A} (x : A) (n m : nat) :
  skipn n (repeat x m) = repeat x (m - n).
Proof.
  revert m. induction n as [| n IH]; intros [| m]; simpl; auto.
Qed.

(** What [prepareAudio] returns is the resampled audio followed by
    fewer than 512 zeros, and its length is a multiple of 512. *)
Theorem prepareAudio_pads_to_512 (resample : list Q -> Z -> result (list Q))
        (audio : audioData) (samplerate : Z) (padded : list Q) :
  prepareAudio resample audio samplerate = ok padded ->
  exists processed zeros,
    resample (to_mono audio)
             (Qceiling (inject_Z (Z.of_nat (List.length (to_mono audio)))
                        * (16000 / inject_Z samplerate)))
    = ok processed
    /\ padded = (processed ++ repeat 0 zeros)%list
    /\ (zeros < 512)%nat
    /\ (List.length padded mod 512 = 0)%nat.
Proof.
  unfold prepareAudio. destruct (samplerate =? 0)%Z; [discriminate |].
  destruct (resample _ _) as [e | processed]; [discriminate |].
  cbn [bind]. intros H. injection H as <-.
  destruct (padded_length_bounds (List.length processed)) as [[Hlo Hhi] [k Hk]].
  exists processed,
    (Z.to_nat (padded_length (List.length processed)) - List.length processed)%nat.
  split; [reflexivity |].
  unfold zeros_with_prefix. rewrite skipn_repeat.
  split; [reflexivity |]. split; [lia |].
  rewrite length_app, repeat_length.
  replace (List.length processed
           + (Z.to_nat (padded_length (List.length processed))
              - List.length processed))%nat
    with (Z.to_nat k * 512)%nat by lia.
  apply Nat.Div0.mod_mul.
Qed.

Lemma prepareAudio_pads_to_512_witness :
  exists processed zeros,
    ok (firstn 3 [1 # 2; 1 # 4; 1 # 8]) = ok processed
    /\ prepareAudio (fun x num => ok (firstn (Z.to_nat num) x))
                    (Mono [1 # 2; 1 # 4; 1 # 8]) 16000
       = ok (processed ++ repeat 0 zeros)%list
    /\ (zeros < 512)%nat.
Proof.
  destruct (prepareAudio_pads_to_512
              (fun x num => ok (firstn (Z.to_nat num) x))
              (Mono [1 # 2; 1 # 4; 1 # 8]) 16000
              ([1 # 2; 1 # 4; 1 # 8] ++ repeat 0 509)%list eq_refl)
    as (processed & zeros & Hres & Hpad & Hz & _).
  exists processed, zeros. split; [exact Hres |]. split; [| exact Hz].
  rewrite <- Hpad. reflexivity.
Defined.

Lemma row_sum_bounds (lo hi : Q) (row : list Q) :
  Forall (fun x => lo <= x <= hi) row ->
  lo * inject_Z (Z.of_nat (List.length row)) <= fold_right Qplus 0 row
  /\ fold_right Qplus 0 row <= hi * inject_Z (Z.of_nat (List.length row)).
Proof.
  induction 1 as [| x row [Hlo Hhi] _ [IHlo IHhi]].
  - cbn [List.length fold_right Z.of_nat]. change (inject_Z 0) with 0.
    split; lra.
  - cbn [List.length fold_right].
    rewrite Nat2Z.inj_succ. unfold Z.succ. rewrite inject_Z_plus.
    change (inject_Z 1) with 1. split; lra.
Qed.

(** The mean over the channels stays between the bounds of the channel
    values, and a stereo file becomes one sample per row. *)
Theorem to_mono_keeps_range (lo hi : Q) (rows : list (list Q)) :
  Forall (fun row => row <> [] /\ Forall (fun x => lo <= x <= hi) row) rows ->
  Forall (fun x => lo <= x <= hi) (to_mono (Multi rows))
  /\ List.length (to_mono (Multi rows)) = List.length rows.
Proof.
  intros Hall. split; [| apply length_map].
  simpl. induction Hall as [| row rows [Hne Hrow] _ IH]; constructor; [| exact IH].
  destruct (row_sum_bounds lo hi row Hrow) as [Hlo Hhi].
  assert (Hn : 0 < inject_Z (Z.of_nat (List.length row))).
  { change 0 with (inject_Z 0). rewrite <- Zlt_Qlt.
    destruct row; [congruence | simpl; lia]. }
  unfold row_mean. split.
  - apply Qle_shift_div_l; assumption.
  - apply Qle_shift_div_r; assumption.
Qed.

Lemma to_mono_keeps_range_witness :
  Forall (fun x => - (1) <= x <= 1)
         (to_mono (Multi [[1 # 2; - (1 # 2)]; [1; 1 # 3]])).
Proof.
  apply (to_mono_keeps_range (- (1)) 1 [[1 # 2; - (1 # 2)]; [1; 1 # 3]]).
  repeat constructor; discriminate.
Defined.

(** ** The destination name *)

Lemma length_string_of_list (l : list ascii) :
  String.length (string_of_list_ascii l) = List.length l.
Proof.
  induction l as [| c l IH]; simpl; [reflexivity | rewrite IH; reflexivity].
Qed.

Lemma length_list_of_string (s : string) :
  List.length (list_ascii_of_string s) = String.length s.
Proof.
  induction s as [| c s IH]; simpl; [reflexivity | rewrite IH; reflexivity].
Qed.

Lemma list_of_string_app (a b : string) :
  list_ascii_of_string (a ++ b)
  = (list_ascii_of_string a ++ list_ascii_of_string b)%list.
Proof.
  induction a as [| c a IH]; simpl; [reflexivity | rewrite IH; reflexivity].
Qed.

(** [s[:-4]]: the string without its last four characters. *)
Lemma str_slice_without_last_4 (s : string) :
  str_slice s 0 (-4)
  = string_of_list_ascii (firstn (String.length s - 4) (list_ascii_of_string s)).
Proof.
  unfold str_slice, Py.slice, Py.slice_index.
  rewrite length_list_of_string.
  change (-4 <? 0)%Z with true. change (0 <? 0)%Z with false. cbv iota.
  replace (Z.to_nat (Z.min 0 (Z.of_nat (String.length s)))) with 0%nat by lia.
  simpl skipn. f_equal. f_equal. lia.
Qed.

(** The destination is the chart's name without its last four
    characters, followed by [_pitched.txt]; a name of at most four
    characters gives [_pitched.txt] alone; the destination is never the
    chart itself. *)
Theorem dest_of_chart_name :
  (forall base ext : string,
      String.length ext = 4%nat ->
      dest_of (base ++ ext) = (base ++ "_pitched.txt")%string)
  /\ (forall filename : string,
         (String.length filename <= 4)%nat ->
         dest_of filename = "_pitched.txt"%string)
  /\ (forall filename : string, dest_of filename <> filename).
Proof.
  split; [| split].
  - intros base ext Hext. unfold dest_of. rewrite str_slice_without_last_4.
    rewrite string_length_append, Hext, list_of_string_app.
    replace (String.length base + 4 - 4)%nat
      with (List.length (list_ascii_of_string base) + 0)%nat
      by (rewrite length_list_of_string; lia).
    rewrite firstn_app_2. simpl firstn. rewrite app_nil_r.
    rewrite string_of_list_ascii_of_string. reflexivity.
  - intros filename Hlen. unfold dest_of. rewrite str_slice_without_last_4.
    replace (String.length filename - 4)%nat with 0%nat by lia. reflexivity.
  - intros filename Heq. apply (f_equal String.length) in Heq.
    unfold dest_of in Heq.
    rewrite string_length_append, str_slice_without_last_4 in Heq.
    rewrite length_string_of_list, length_firstn, length_list_of_string in Heq.
    simpl in Heq. lia.
Qed.

Lemma dest_of_chart_name_witness :
  dest_of "song.txt" = "song_pitched.txt"%string
  /\ dest_of "a.t" = "_pitched.txt"%string.
Proof.
  split.
  - apply (proj1 dest_of_chart_name "song"%string ".txt"%string). reflexivity.
  - apply (proj1 (proj2 dest_of_chart_name) "a.t"%string). simpl. lia.
Defined.

(** ** Charts that complete *)

Lemma pitch_line_pitchable {builtins : Builtins} (c gap tps : Q)
      (pitch uncertainty : list Q) (line : list string) :
  Qeq_bool tps 0 = false ->
  List.length pitch = List.length uncertainty ->
  pitchable line = true ->
  exists pitched,
    pitch_line c gap tps pitch (map (fun u => 1 - u) uncertainty) line
    = ok pitched.
Proof.
  intros Htps Hlen Hline. destruct line as [| l0 rest]; [discriminate |].
  unfold pitchable in Hline.
  destruct (Py.startswith "-" l0) eqn:Hbreak.
  - destruct rest as [| l1 rest]; [discriminate |].
    exists [l0; l1]. unfold pitch_line. cbn [Py.getitem nth_error bind ok].
    rewrite Hbreak. reflexivity.
  - destruct (Py.startswith "E" l0) eqn:Hend.
    + exists [l0]. unfold pitch_line. cbn [Py.getitem nth_error bind ok].
      rewrite Hbreak, Hend. reflexivity.
    + destruct rest as [| l1 [| l2 [| l3 [| l4 rest]]]]; try discriminate.
      destruct (py_int l1) as [t |] eqn:Ht; [| discriminate].
      destruct (py_int l2) as [d |] eqn:Hd; [| discriminate].
      destruct (pitch_line_sung_note c gap tps pitch uncertainty
                                     l0 l1 l2 l3 l4 rest t d
                                     Hbreak Hend Ht Hd Htps Hlen) as [note Hn].
      eexists. exact Hn.
Qed.

Lemma for_each_total {A B} (f : A -> result B) (l : list A) :
  Forall (fun x => exists y, f x = ok y) l ->
  exists ys, for_each f l = ok ys.
Proof.
  induction 1 as [| x l [y Hy] _ [ys Hys]]; simpl.
  - exists []. reflexivity.
  - exists (y :: ys). rewrite Hy. simpl. rewrite Hys. reflexivity.
Qed.

(** A chart completes when it loads, the audio loads, its header reads
    with a BPM of integer part other than 0 and a GAP, the two series of
    the model have one length and every stored line is one [pitch]
    takes, all within the ranges in which no operation of the program
    overflows: ticks below 2^53 in size, a GAP of at most 2^53 in size
    and model pitches between 0 and 1.  The run then does every step and
    writes the metadata and one line per stored line. *)
Theorem well_formed_chart_completes {builtins : Builtins} (c : Q)
        (lines metaData : list string) (lyrics : list (list string))
        (out : modelOutput) (b g : Q) :
  loadFile lines = ok (metaData, lyrics) ->
  pitch_tags metaData None None = ok (Some b, Some g) ->
  Qeq_bool (ticksPerSecond b) 0 = false ->
  - inject_Z (2 ^ 53) <= g <= inject_Z (2 ^ 53) ->
  Forall (fun p => 0 <= p <= 1) (mo_pitch out) ->
  List.length (mo_pitch out) = List.length (mo_uncertainty out) ->
  forallb pitchable lyrics = true ->
  exists notes,
    main c lines (ok out)
    = ([ReadChart; LoadAudio; PrepareAudio; Analyze; CreateDest;
        WriteLines metaData; WriteLines notes], ok tt)
    /\ List.length notes = List.length lyrics.
Proof.
  intros Hload Htags Htps _ _ Hlen Hall.
  assert (Hpitch : exists lyricsPitched,
             pitch c metaData lyrics out = ok lyricsPitched).
  { rewrite (pitch_with_tags c metaData lyrics out b g Htags).
    apply for_each_total. rewrite forallb_forall in Hall.
    apply Forall_forall. intros line Hin.
    apply pitch_line_pitchable; auto. }
  destruct Hpitch as [lyricsPitched Hpitch].
  destruct (pitch_writable c metaData lyrics lyricsPitched out Hpitch)
    as [notes Hnotes].
  exists notes. split.
  - rewrite main_outcomes, Hload. cbv beta iota delta [ok].
    unfold ok in Hpitch, Hnotes. rewrite Hpitch, Hnotes. reflexivity.
  - rewrite (pitch_with_tags c metaData lyrics out b g Htags) in Hpitch.
    rewrite <- (Forall2_length (for_each_Forall2 _ _ _ Hnotes)).
    rewrite <- (Forall2_length (for_each_Forall2 _ _ _ Hpitch)).
    reflexivity.
Qed.

Lemma well_formed_chart_completes_witness :
  let out := {| mo_pitch := repeat (1 # 2) 20; mo_uncertainty := repeat 1 20 |} in
  exists notes,
    main (85 # 100)
         ["#BPM:120" ++ LF; "#GAP:0" ++ LF; ": 0 4 7 la" ++ LF; "- 5" ++ LF;
          "E" ++ LF]%string (ok out)
    = ([ReadChart; LoadAudio; PrepareAudio; Analyze; CreateDest;
        WriteLines ["#BPM:120" ++ LF; "#GAP:0" ++ LF]%string; WriteLines notes],
       ok tt)
    /\ List.length notes = 3%nat.
Proof.
  intros out.
  apply (@well_formed_chart_completes decimal_builtins (85 # 100)
           ["#BPM:120" ++ LF; "#GAP:0" ++ LF; ": 0 4 7 la" ++ LF; "- 5" ++ LF;
            "E" ++ LF]%string
           ["#BPM:120" ++ LF; "#GAP:0" ++ LF]%string
           [[":"; "0"; "4"; "7"; "la" ++ LF]; ["-"; "5" ++ LF]; ["E" ++ LF]]%string
           out 120 0); try reflexivity.
  - split; discriminate.
  - repeat constructor; discriminate.
Defined.

(** ** The threshold *)

Lemma map_filter_incl {A B} (f : A -> B) (g1 g2 : A -> bool) (l : list A) :
  (forall x, g2 x = true -> g1 x = true) ->
  incl (map f (filter g2 l)) (map f (filter g1 l))
  /\ (List.length (map f (filter g2 l)) <= List.length (map f (filter g1 l)))%nat.
Proof.
  intros Himp. induction l as [| x l [IHi IHl]]; simpl.
  - split; [apply incl_refl | lia].
  - destruct (g2 x) eqn:H2.
    + rewrite (Himp x H2). simpl. split; [| lia].
      apply incl_cons; [left; reflexivity | apply incl_tl, IHi].
    + destruct (g1 x); simpl; split; try lia; try exact IHi.
      apply incl_tl, IHi.
Qed.

(** Raising the confidence threshold never adds a frame: the pitches
    kept under the higher threshold are among those kept under the lower
    one. *)
Theorem higher_threshold_keeps_fewer_frames (c1 c2 : Q)
        (pitch uncertainty : list Q) (start stop : Z) (kept1 kept2 : list Q) :
  c1 <= c2 ->
  List.length pitch = List.length uncertainty ->
  confident_pitches c1 pitch (map (fun u => 1 - u) uncertainty) start stop
  = ok kept1 ->
  confident_pitches c2 pitch (map (fun u => 1 - u) uncertainty) start stop
  = ok kept2 ->
  incl kept2 kept1 /\ (List.length kept2 <= List.length kept1)%nat.
Proof.
  intros Hc Hlen H1 H2.
  rewrite confident_pitches_as_filter in H1, H2 by exact Hlen.
  injection H1 as <-. injection H2 as <-.
  apply map_filter_incl. intros i Hi.
  apply Qle_bool_iff in Hi. apply Qle_bool_iff. lra.
Qed.

Lemma higher_threshold_keeps_fewer_frames_witness :
  incl [3 # 10] [1 # 10; 3 # 10]
  /\ (List.length [3 # 10] <= List.length [1 # 10; 3 # 10])%nat.
Proof.
  apply (higher_threshold_keeps_fewer_frames (85 # 100) (95 # 100)
           [1 # 10; 2 # 10; 3 # 10; 4 # 10] [1 # 10; 9 # 10; 0; 1 # 2] 0 19);
    solve [discriminate | reflexivity].
Defined.

(** * The frame numbers as Python computes them *)






(** * Lines whose text is lost, notes without their frames *)

(** C4 (the code at two failing inputs). A sung-note line whose text
    ends in a space, [: 4 4 0 lo ], splits into six tokens; the parser
    stores a space and the line terminator as its text and the syllable
    is gone.  For [: 0 4 0 hello world] it stores [ world].  Rejoining
    the last two tokens would give [lo ] and [hello world]. *)
Theorem six_tokens_fifth_token_dropped :
  (Py.split " " (": 4 4 0 lo " ++ LF)
   = [":"; "4"; "4"; "0"; "lo"; LF]%string
   /\ loadFile_split (": 4 4 0 lo " ++ LF)
      = ok [":"; "4"; "4"; "0"; " " ++ LF]%string
   /\ loadFile_split (": 4 4 0 lo " ++ LF)
      <> ok [":"; "4"; "4"; "0"; "lo" ++ " " ++ LF]%string)
  /\ (Py.split " " (": 0 4 0 hello world" ++ LF)
      = [":"; "0"; "4"; "0"; "hello"; "world" ++ LF]%string
      /\ loadFile_split (": 0 4 0 hello world" ++ LF)
         = ok [":"; "0"; "4"; "0"; " world" ++ LF]%string
      /\ loadFile_split (": 0 4 0 hello world" ++ LF)
         <> ok [":"; "0"; "4"; "0"; "hello" ++ " " ++ ("world" ++ LF)]%string).
Proof.
  repeat split; discriminate.
Qed.

Lemma note_of_three_quarters : hz2note (pitch2hz (Q2R (3 # 4))) = 16%Z.
Proof.
  rewrite note_of_pitch_closed_form.
  rewrite (round_unique _ 76); [reflexivity |].
  pose proof log2_44_bounds as Hlog.
  replace (Q2R (3 # 4)) with (3 / 4)%R by (unfold Q2R; simpl; lra).
  unfold PT_SLOPE, PT_OFFSET. lra.
Qed.

(** C6 (the code at a failing input). BPM 120, GAP 0, a note at tick 0
    of duration 4, 20 frames of pitch 0.75 and uncertainty 0, threshold
    0.85.  The mapped range is -1..17; clamped to the series it holds
    the frames 0..16, all confident, whose median 0.75 converts to note
    16.  The code slices from -1, selects no frame and writes 0. *)
Theorem first_note_ignores_confident_frames :
  let pitch := repeat (3 # 4) 20 in
  let confidence := map (fun u => 1 - u) (repeat 0 20) in
  let in_range :=
    combine (Spec.clamped_slice pitch (-1) 17)
            (Spec.clamped_slice confidence (-1) 17) in
  let selected :=
    map fst (filter (fun frame => Qle_bool (85 # 100) (snd frame)) in_range) in
  startFrame 0 (ticksPerSecond 120) 0 = (-1)%Z
  /\ endFrame 0 (ticksPerSecond 120) 0 4 = 17%Z
  /\ selected = repeat (3 # 4) 17
  /\ Np.median selected = 3 # 4
  /\ hz2note (pitch2hz (Q2R (Np.median selected))) = 16%Z
  /\ confident_pitches (85 # 100) pitch confidence (-1) 17 = ok []
  /\ pitch_line (85 # 100) 0 (ticksPerSecond 120) pitch confidence
                [":"; "0"; "4"; "7"; "la" ++ LF]%string
     = ok [":"; "0"; "4"; "0"; "la" ++ LF]%string.
Proof.
  intros pitch confidence in_range selected.
  assert (Hsel : selected = repeat (3 # 4) 17) by reflexivity.
  assert (Hmed : Np.median selected = 3 # 4) by reflexivity.
  split; [reflexivity |]. split; [reflexivity |].
  split; [exact Hsel |]. split; [exact Hmed |].
  split; [rewrite Hmed; exact note_of_three_quarters |].
  split; reflexivity.
Qed.

(** C10, the claim as worded fails for a line that is [-] alone: it is
    stored with one field, [line[1]] raises [IndexError] and nothing is
    written. *)
Lemma break_line_without_second_field_counterexample :
  let out := {| mo_pitch := repeat (1 # 2) 20; mo_uncertainty := repeat 0 20 |} in
  let lines := ["#BPM:120" ++ LF; "#GAP:0" ++ LF; "-" ++ LF]%string in
  loadFile lines = ok (["#BPM:120" ++ LF; "#GAP:0" ++ LF], [["-" ++ LF]])%string
  /\ Py.startswith "-" ("-" ++ LF) = true
  /\ pitch_line (85 # 100) 0 (ticksPerSecond 120) (mo_pitch out)
                (map (fun u => 1 - u) (mo_uncertainty out)) ["-" ++ LF]%string
     = inl IndexError
  /\ main (85 # 100) lines (ok out)
     = ([ReadChart; LoadAudio; PrepareAudio; Analyze], inl IndexError)
  /\ ~ (exists text,
           pitch_line (85 # 100) 0 (ticksPerSecond 120) (mo_pitch out)
                      (map (fun u => 1 - u) (mo_uncertainty out))
                      ["-" ++ LF]%string
           = ok text).
Proof.
  intros out lines. repeat split.
  intros [text H]. discriminate.
Qed.
